(** * Student score reports: a model of [student.go] and its properties

    The program reads the rows of a spreadsheet, turns each row into a
    [Student] record, and prints three reports: the average of every score
    component, the average total per branch of the 2024 batch, and the top
    three students per component.

    The development follows the source file function by function.  Scores
    are IEEE 754 binary64 numbers ([float64]); strings are byte strings; Go
    maps are finite maps; slices live in a store of backing arrays, so that
    in-place sorting and aliasing can be stated. *)

From Stdlib Require Import ZArith String Ascii List Lia SpecFloat.
From stdpp Require Import base option list gmap strings pretty.

Local Open Scope string_scope.
Local Open Scope list_scope.
Local Open Scope Z_scope.

(** ** float64 *)

(** Go's [float64] is IEEE 754 binary64 with round-to-nearest-even
    arithmetic.  [spec_float] instantiated at precision 53 and maximal
    exponent 1024 is exactly that format (without NaN payloads, which the
    program never inspects). *)
Abbreviation float64 := spec_float (only parsing).

Module F64.

Definition prec : Z := 53.
Definition emax : Z := 1024.

Definition zero : float64 := S754_zero false.

Definition add : float64 → float64 → float64 := SFadd prec emax.
Definition sub : float64 → float64 → float64 := SFsub prec emax.
Definition div : float64 → float64 → float64 := SFdiv prec emax.
Definition abs : float64 → float64 := SFabs.

(** [a < b] and [a > b]; both are false as soon as one side is NaN. *)
Definition ltb : float64 → float64 → bool := SFltb.
Definition gtb (a b : float64) : bool := SFltb b a.
(** [a >= b] *)
Definition geb (a b : float64) : bool := SFleb b a.

Definition is_nan (a : float64) : bool :=
  match a with S754_nan => true | _ => false end.

(** The conversion [float64(n)] of an integer. *)
Definition of_int (n : Z) : float64 := binary_normalize prec emax n 0 false.

(** The binary64 number nearest to the fraction [p / q] (ties to even),
    with sign [s]: the value of a decimal constant or literal. *)
Definition of_ratio (s : bool) (p q : positive) : float64 :=
  let '(mz, ez, lz) := SFdiv_core_binary prec emax (Zpos p) 0 (Zpos q) 0 in
  binary_round_aux prec emax s mz ez lz.

End F64.

#[global] Instance float64_eq_dec : EqDecision float64.
Proof. solve_decision. Defined.

(** ** The formatting verbs of [fmt] used by the program *)

Module Fmt.

(** The line feed that ends every printed line. *)
Definition nl : string := String "010"%char "".

(** [%d] on an [int]. *)
Definition d (n : Z) : string := pretty n.

(** Nearest integer to [p / q] for [0 <= p], [0 < q], ties to even. *)
Definition round_half_even (p q : Z) : Z :=
  let n := p / q in
  match 2 * (p mod q) ?= q with
  | Lt => n
  | Gt => n + 1
  | Eq => if Z.even n then n else n + 1
  end.

(** The magnitude [m * 2^e], in hundredths, correctly rounded. *)
Definition hundredths (m : positive) (e : Z) : Z :=
  if 0 <=? e then Zpos m * 2 ^ e * 100
  else round_half_even (Zpos m * 100) (2 ^ (- e)).

Definition two_digits (n : Z) : string :=
  if n <? 10 then "0" +:+ pretty n else pretty n.

(** [%.2f] on a [float64]: the exact value rounded to two decimals. *)
Definition f2 (x : float64) : string :=
  match x with
  | S754_nan => "NaN"
  | S754_infinity false => "+Inf"
  | S754_infinity true => "-Inf"
  | S754_zero s => (if s then "-" else "") +:+ "0.00"
  | S754_finite s m e =>
      let h := hundredths m e in
      (if s then "-" else "") +:+ pretty (h / 100) +:+ "." +:+ two_digits (h mod 100)
  end.

End Fmt.

(** ** The data model *)

Record Student := mkStudent {
  SlNo : Z;
  ClassNo : Z;
  Emplid : string;
  CampusID : string;
  Quiz : float64;
  MidSem : float64;
  LabTest : float64;
  WeeklyLabs : float64;
  PreCompre : float64;
  Compre : float64;
  Total : float64;
  ComputedSum : float64
}.

#[global] Instance Student_eq_dec : EqDecision Student.
Proof. solve_decision. Defined.

(** The zero value [Student{}]. *)
Definition Student_zero : Student :=
  mkStudent 0 0 "" "" F64.zero F64.zero F64.zero F64.zero F64.zero F64.zero
    F64.zero F64.zero.

(** A Go [error] made by [fmt.Errorf] is its message; [None] is [nil]. *)
Abbreviation error := (option string) (only parsing).

(** ** Library functions the program calls

    [strconv.Atoi] and [strconv.ParseFloat] return a value together with an
    error that is [nil] or wraps [ErrSyntax] or [ErrRange].  They are
    parameters of the development: every general statement below holds for
    whatever these functions compute. *)

Inductive NumError := ErrSyntax | ErrRange.

Class Strconv := {
  Atoi : string → Z * option NumError;
  (** [strconv.ParseFloat(s, 64)] *)
  ParseFloat : string → float64 * option NumError
}.

(** ** Printing and run-time panics

    A computation prints a sequence of strings to standard output and then
    either returns a value or panics (an index or slice bound out of
    range). *)

Inductive result (A : Type) := Done (a : A) | Panic.
Arguments Done {A} a.
Arguments Panic {A}.

Definition io (A : Type) : Type := list string * result A.

#[global] Instance io_ret : MRet io := λ A a, ([], Done a).
#[global] Instance io_bind : MBind io := λ A B k m,
  match m with
  | (out, Done a) => let '(out', r) := k a in (out ++ out', r)
  | (out, Panic) => (out, Panic)
  end.

Definition Printf (s : string) : io unit := ([s], Done tt).
Definition panic {A} : io A := ([], Panic).

(** [row[i]] *)
Definition index (row : list string) (i : nat) : io string :=
  match row !! i with
  | Some cell => mret cell
  | None => panic
  end.

Definition stdout {A} (m : io A) : list string := fst m.
Definition outcome {A} (m : io A) : result A := snd m.

(** ** Row parsing *)

Definition almostEqual (a b : float64) : bool :=
  let epsilon := F64.of_ratio false 1 100 in
  F64.ltb (F64.abs (F64.sub a b)) epsilon.

Section Parsing.
Context `{Strconv}.

(** The closure [parseFloat] of [parseRow]. *)
Definition parseFloat (s : string) : float64 * option NumError :=
  if decide (s = "") then (F64.zero, None) else ParseFloat s.

Definition parseRow (rowNum : Z) (row : list string) : io (Student * error) :=
  c0 ← index row 0;
  let '(slNo, err) := Atoi c0 in
  if err is Some _ then
    mret (Student_zero, Some ("invalid Sl No at row " +:+ Fmt.d rowNum))
  else
  c1 ← index row 1;
  let '(classNo, err) := Atoi c1 in
  if err is Some _ then
    mret (Student_zero, Some ("invalid Class No at row " +:+ Fmt.d rowNum))
  else
  c4 ← index row 4;
  let '(quiz, err) := parseFloat c4 in
  c5 ← index row 5;
  let '(midSem, err) := parseFloat c5 in
  c6 ← index row 6;
  let '(labTest, err) := parseFloat c6 in
  c7 ← index row 7;
  let '(weeklyLabs, err) := parseFloat c7 in
  c8 ← index row 8;
  let '(preCompre, err) := parseFloat c8 in
  c9 ← index row 9;
  let '(compre, err) := parseFloat c9 in
  c10 ← index row 10;
  let '(total, err) := parseFloat c10 in
  if err is Some _ then
    mret (Student_zero, Some ("invalid numeric data at row " +:+ Fmt.d rowNum))
  else
  let computedPreCompre :=
    F64.add (F64.add (F64.add quiz midSem) labTest) weeklyLabs in
  _ ← (if negb (almostEqual computedPreCompre preCompre) then
         Printf ("Error: Mismatch in PreCompre at row " +:+ Fmt.d rowNum
                 +:+ ". Expected " +:+ Fmt.f2 computedPreCompre
                 +:+ ", Found " +:+ Fmt.f2 preCompre +:+ Fmt.nl)
       else mret tt);
  let computedSum :=
    F64.add (F64.add (F64.add (F64.add quiz midSem) labTest) weeklyLabs) compre in
  _ ← (if negb (almostEqual computedSum total) then
         Printf ("Error: Mismatch in total at row " +:+ Fmt.d rowNum
                 +:+ ". Expected " +:+ Fmt.f2 computedSum
                 +:+ ", Found " +:+ Fmt.f2 total +:+ Fmt.nl)
       else mret tt);
  c2 ← index row 2;
  c3 ← index row 3;
  mret (mkStudent slNo classNo c2 c3 quiz midSem labTest weeklyLabs preCompre
          compre total computedSum, None).

End Parsing.

(** ** Reading the sheet *)

(** What opening the file and reading its first sheet can give:
    [excelize.OpenFile] fails, [GetRows] fails, or the rows of the first
    sheet, each a list of cells. *)
Inductive Workbook :=
  | OpenFails (err : string)
  | GetRowsFails (err : string)
  | Sheet (rows : list (list string)).

Section Extraction.
Context `{Strconv}.

(** The loop of [parseExcel] over [rows[1:]]; [i] is the loop index and
    [students] the slice built so far.  The index is at most the number of
    rows, an [int], so [i+2] is computed without wrap-around. *)
Fixpoint parseRows (i : Z) (rows : list (list string)) (students : list Student)
    : io (list Student) :=
  match rows with
  | [] => mret students
  | row :: rest =>
      if bool_decide (length row < 11)%nat then parseRows (i + 1) rest students
      else
        '(student, err) ← parseRow (i + 2) row;
        match err with
        | Some e =>
            _ ← Printf ("Error parsing row " +:+ Fmt.d (i + 2) +:+ ": " +:+ e
                        +:+ Fmt.nl);
            parseRows (i + 1) rest students
        | None => parseRows (i + 1) rest (students ++ [student])
        end
  end.

Definition parseExcel (file : Workbook) : io (list Student * error) :=
  match file with
  | OpenFails err => mret ([], Some ("failed to open file: " +:+ err))
  | GetRowsFails err => mret ([], Some ("failed to read sheet: " +:+ err))
  | Sheet rows =>
      match rows with
      | [] => panic
      | _ :: data =>
          students ← parseRows 0 data [];
          mret (students, None)
      end
  end.

End Extraction.

(** ** A reference [strconv]

    Used to run the model on concrete rows.  [Atoi] is the 64-bit one.
    [ParseFloat] covers decimal literals (sign, digits, fraction, decimal
    exponent) and the special values; hexadecimal literals and underscores
    between digits, which the library also reads, are reported here as
    syntax errors and appear in no statement below. *)

Module Reference.

Definition digit (c : ascii) : option Z :=
  let n := Z.of_N (N_of_ascii c) in
  if (48 <=? n) && (n <=? 57) then Some (n - 48) else None.

(** Reads a maximal run of digits: their number, their value, the rest. *)
Fixpoint digits (count : nat) (acc : Z) (s : string) : nat * Z * string :=
  match s with
  | String c rest =>
      match digit c with
      | Some v => digits (S count) (10 * acc + v) rest
      | None => (count, acc, s)
      end
  | EmptyString => (count, acc, s)
  end.

Definition sign (s : string) : bool * string :=
  match s with
  | String "-" rest => (true, rest)
  | String "+" rest => (false, rest)
  | _ => (false, s)
  end.

Definition Atoi (s : string) : Z * option NumError :=
  let '(neg, body) := sign s in
  match digits 0 0 body with
  | (S _, n, EmptyString) =>
      let v := if neg then - n else n in
      if v <? - 2 ^ 63 then (- 2 ^ 63, Some ErrRange)
      else if 2 ^ 63 - 1 <? v then (2 ^ 63 - 1, Some ErrRange)
      else (v, None)
  | _ => (0, Some ErrSyntax)
  end.

Definition lower (c : ascii) : ascii :=
  let n := N_of_ascii c in
  if (65 <=? n)%N && (n <=? 90)%N then ascii_of_N (n + 32) else c.

Fixpoint lowercase (s : string) : string :=
  match s with
  | String c rest => String (lower c) (lowercase rest)
  | EmptyString => EmptyString
  end.

(** The value [(-1)^neg * n * 10^e], rounded once. *)
Definition decimal (neg : bool) (n e : Z) : float64 * option NumError :=
  match n with
  | Zpos p =>
      let x := match e with
               | Zneg k => F64.of_ratio neg p (10 ^ k)%positive
               | _ => F64.of_ratio neg (p * Z.to_pos (10 ^ e))%positive 1
               end in
      (x, if x is S754_infinity _ then Some ErrRange else None)
  | _ => (S754_zero neg, None)
  end.

(** The optional exponent part: [e], optional sign, at least one digit. *)
Definition exponent (s : string) : option Z :=
  match s with
  | EmptyString => Some 0
  | String c rest =>
      if bool_decide (lower c = "e"%char) then
        let '(neg, body) := sign rest in
        match digits 0 0 body with
        | (S _, n, EmptyString) => Some (if neg then - n else n)
        | _ => None
        end
      else None
  end.

Definition ParseFloat (s : string) : float64 * option NumError :=
  let '(neg, body) := sign s in
  let low := lowercase body in
  if bool_decide (low = "inf" ∨ low = "infinity") then (S754_infinity neg, None)
  else if bool_decide (lowercase s = "nan") then (S754_nan, None)
  else
    let '(k1, n1, rest) := digits 0 0 body in
    let '(k2, n2, rest) :=
      match rest with
      | String "." frac => digits 0 n1 frac
      | _ => (0%nat, n1, rest)
      end in
    match (k1 + k2)%nat, exponent rest with
    | S _, Some e => decimal neg n2 (e - Z.of_nat k2)
    | _, _ => (F64.zero, Some ErrSyntax)
    end.

#[global] Instance strconv : Strconv := Build_Strconv Atoi ParseFloat.

End Reference.

(** ** Aggregation *)

(** [m[key] += v] on a map of floats: a missing key reads as [0]. *)
Definition add_to (key : string) (v : float64) (m : gmap string float64)
    : gmap string float64 :=
  <[key := F64.add (default F64.zero (m !! key)) v]> m.

(** [m[key]++] on a map of counters.  A counter never exceeds the number of
    records, an [int], so the increment does not wrap around. *)
Definition incr (key : string) (m : gmap string Z) : gmap string Z :=
  <[key := default 0 (m !! key) + 1]> m.

(** The body of the first loop of [computeAverages]. *)
Definition sum_step (sum : gmap string float64) (s : Student)
    : gmap string float64 :=
  add_to "Total" (Total s)
    (add_to "Compre" (Compre s)
      (add_to "PreCompre" (PreCompre s)
        (add_to "WeeklyLabs" (WeeklyLabs s)
          (add_to "LabTest" (LabTest s)
            (add_to "MidSem" (MidSem s)
              (add_to "Quiz" (Quiz s) sum)))))).

(** The second loop stores [val / count] under every key of [sum]; the
    resulting map does not depend on the order in which keys are visited. *)
Definition computeAverages (students : list Student) : gmap string float64 :=
  let sum := foldl sum_step ∅ students in
  let count := F64.of_int (Z.of_nat (length students)) in
  (λ val, F64.div val count) <$> sum.

(** [strings.Contains] *)
Fixpoint Contains (s substr : string) : bool :=
  String.prefix substr s ||
  match s with
  | String _ rest => Contains rest substr
  | EmptyString => false
  end.

(** The test that guards the two updates in [computeBranchAverages]; when
    it holds, the branch code is [CampusID[4:6]]. *)
Definition branchCode (s : Student) : string := substring 4 2 (CampusID s).

Definition in_batch (s : Student) : bool :=
  if bool_decide (String.length (CampusID s) < 6)%nat then false
  else
    let yearPrefix := substring 0 4 (CampusID s) in
    bool_decide (yearPrefix = "2024") && Contains (branchCode s) "A".

Definition branch_step (acc : gmap string float64 * gmap string Z) (s : Student)
    : gmap string float64 * gmap string Z :=
  let '(branchTotal, branchCount) := acc in
  if in_batch s then
    (add_to (branchCode s) (Total s) branchTotal, incr (branchCode s) branchCount)
  else acc.

Definition computeBranchAverages (students : list Student)
    : gmap string float64 :=
  let '(branchTotal, branchCount) := foldl branch_step (∅, ∅) students in
  map_imap (λ branch total,
      Some (F64.div total (F64.of_int (default 0 (branchCount !! branch)))))
    branchTotal.

(** ** Ranking *)

Definition getScoreByCategory (student : Student) (category : string)
    : float64 :=
  if decide (category = "Quiz") then Quiz student
  else if decide (category = "MidSem") then MidSem student
  else if decide (category = "LabTest") then LabTest student
  else if decide (category = "WeeklyLabs") then WeeklyLabs student
  else if decide (category = "PreCompre") then PreCompre student
  else if decide (category = "Compre") then Compre student
  else if decide (category = "Total") then Total student
  else F64.zero.

Definition min (a b : nat) : nat := if bool_decide (a < b)%nat then a else b.

(** [sort.Slice] reorders a slice in place according to a [less] function.
    It is a parameter, constrained by what its documentation promises: the
    result is a rearrangement of the input, and it is in order whenever
    [less] is a transitive ordering on the elements, in the two senses the
    documentation spells out (the second fails for [<] on floats with NaN,
    as the documentation warns). *)
Class Sort := {
  sortSlice : ∀ {A : Type}, (A → A → bool) → list A → list A
}.

Definition transitive_ordering {A} (less : A → A → bool) (l : list A) : Prop :=
  (∀ x, x ∈ l → less x x = false) ∧
  (∀ x y z, x ∈ l → y ∈ l → z ∈ l →
     less x y = true → less y z = true → less x z = true) ∧
  (∀ x y z, x ∈ l → y ∈ l → z ∈ l →
     less x y = false → less y z = false → less x z = false).

(** No element is [less] than one placed before it. *)
Definition in_order {A} (less : A → A → bool) (l : list A) : Prop :=
  ∀ i j x y, (i < j)%nat → l !! i = Some x → l !! j = Some y → less y x = false.

Class SortSpec `{Sort} := {
  sortSlice_perm : ∀ A (less : A → A → bool) l, sortSlice less l ≡ₚ l;
  sortSlice_in_order : ∀ A (less : A → A → bool) l,
    transitive_ordering less l → in_order less (sortSlice less l)
}.

(** Slices: a window [off, off+len) into a backing array of the store. *)
Record slice := mkSlice { base : nat; off : nat; len : nat }.

Abbreviation store := (gmap nat (list Student)).

(** The elements seen through a slice. *)
Definition load (h : store) (s : slice) : list Student :=
  take (len s) (drop (off s) (default [] (h !! base s))).

(** A new backing array holding [l], and the slice covering it. *)
Definition alloc (h : store) (l : list Student) : store * slice :=
  let b := fresh (dom h) in
  (<[b := l]> h, mkSlice b 0 (length l)).

(** Overwrites the elements seen through [s] with [new], in place. *)
Definition save (h : store) (s : slice) (new : list Student) : store :=
  match h !! base s with
  | Some arr =>
      <[base s := take (off s) arr ++ new ++ drop (off s + len s) arr]> h
  | None => h
  end.

(** [s[:k]] *)
Definition upto (s : slice) (k : nat) : slice := mkSlice (base s) (off s) k.

Definition categories : list string :=
  ["Quiz"; "MidSem"; "LabTest"; "WeeklyLabs"; "PreCompre"; "Compre"; "Total"].

(** The comparison closure given to [sort.Slice]. *)
Definition higher (category : string) (a b : Student) : bool :=
  F64.gtb (getScoreByCategory a category) (getScoreByCategory b category).

Section Ranking.
Context `{Sort}.

(** One iteration of the loop of [rankStudents]: copy [students] into a
    new array, sort the copy in place, keep its first [min(3, len)]
    elements. *)
Definition rank_step (students : slice) (acc : store * gmap string slice)
    (category : string) : store * gmap string slice :=
  let '(h, rankings) := acc in
  let '(h, sortedStudents) := alloc h (load h students) in
  let h := save h sortedStudents
             (sortSlice (higher category) (load h sortedStudents)) in
  (h, <[category := upto sortedStudents (min 3 (len sortedStudents))]> rankings).

Definition rankStudents (h : store) (students : slice)
    : store * gmap string slice :=
  foldl (rank_step students) (h, ∅) categories.

(** The records a ranking holds, as a value: the first [min(3, n)] of the
    sorted copy. *)
Definition top3 (category : string) (students : list Student) : list Student :=
  take (min 3 (length students)) (sortSlice (higher category) students).

End Ranking.

(** The insertion sort that [sort.Slice] runs on slices of at most twelve
    elements: each element in turn moves left past every element it is
    [less] than.  [insert] works on the sorted prefix, last element
    first. *)
Module Insertion.

Fixpoint insert {A} (less : A → A → bool) (x : A) (before : list A) : list A :=
  match before with
  | y :: rest => if less x y then y :: insert less x rest else x :: before
  | [] => [x]
  end.

Definition sort {A} (less : A → A → bool) (l : list A) : list A :=
  reverse (foldl (λ before x, insert less x before) [] l).

#[global] Instance sorter : Sort := Build_Sort (@sort).

End Insertion.

(** ** The program *)

(** Ranging over a map visits every entry once, in an order the language
    leaves unspecified. *)
Definition range_order {V} (m : gmap string V) (visited : list (string * V))
    : Prop :=
  visited ≡ₚ map_to_list m.

Definition average_line (entry : string * float64) : string :=
  fst entry +:+ ": " +:+ Fmt.f2 (snd entry) +:+ Fmt.nl.

Definition branch_line (entry : string * float64) : string :=
  "Branch " +:+ fst entry +:+ ": " +:+ Fmt.f2 (snd entry) +:+ Fmt.nl.

Definition rank_line (category : string) (rank : nat) (student : Student)
    : string :=
  "Rank:" +:+ Fmt.d (Z.of_nat rank + 1) +:+ ". " +:+ Emplid student +:+ " - "
  +:+ Fmt.f2 (getScoreByCategory student category) +:+ Fmt.nl.

Definition rank_block (h : store) (entry : string * slice) : list string :=
  (Fmt.nl +:+ fst entry +:+ ":" +:+ Fmt.nl)
  :: imap (rank_line (fst entry)) (load h (snd entry)).

Definition averages_header : string :=
  Fmt.nl +:+ "--- Average Scores ---" +:+ Fmt.nl.
Definition branches_header : string :=
  Fmt.nl +:+ "--- Branch-wise Averages (2024 Batch) ---" +:+ Fmt.nl.
Definition rankings_header : string :=
  Fmt.nl +:+ "--- Top 3 Students Per Component ---" +:+ Fmt.nl.

Section Program.
Context `{Strconv} `{Sort}.

(** The store and the rankings [main] gets from [rankStudents], the
    records of [students] being held in an array of their own. *)
Definition rankings_of (students : list Student) : store * gmap string slice :=
  let '(h, s) := alloc ∅ students in rankStudents h s.

(** What the three reports print for a record list, given the order in
    which each of the three maps is ranged over. *)
Definition reports (students : list Student)
    (o1 o2 : list (string * float64)) (o3 : list (string * slice))
    : list string :=
  [averages_header] ++ (average_line <$> o1) ++
  [branches_header] ++ (branch_line <$> o2) ++
  [rankings_header] ++ concat (rank_block (rankings_of students).1 <$> o3).

(** [main]: [args] is [os.Args], [open] what the file system holds at each
    path.  [main_run args open r] says that [r] is a possible run. *)
Definition main_run (args : list string) (open : string → Workbook)
    (r : io unit) : Prop :=
  match args with
  | _ :: filePath :: _ =>
      match parseExcel (open filePath) with
      | (out, Panic) => r = (out, Panic)
      | (out, Done (_, Some err)) =>
          r = (out ++ ["Error: " +:+ err +:+ Fmt.nl], Done tt)
      | (out, Done (students, None)) =>
          ∃ o1 o2 o3,
            range_order (computeAverages students) o1 ∧
            range_order (computeBranchAverages students) o2 ∧
            range_order (rankings_of students).2 o3 ∧
            r = (out ++ reports students o1 o2 o3, Done tt)
      end
  | _ => r = (["Usage: go run main.go <path-to-excel-file>" +:+ Fmt.nl], Done tt)
  end.

End Program.

(** ** Vocabulary of the statements *)

(** The line printed when a declared subtotal differs from the computed
    one. *)
Definition mismatch_line (field : string) (rowNum : Z)
    (expected found : float64) : string :=
  "Error: Mismatch in " +:+ field +:+ " at row " +:+ Fmt.d rowNum
  +:+ ". Expected " +:+ Fmt.f2 expected +:+ ", Found " +:+ Fmt.f2 found
  +:+ Fmt.nl.

(** The line [parseExcel] prints for a row that [parseRow] rejects. *)
Definition rejected_line (rowNum : Z) (cause : string) : string :=
  "Error parsing row " +:+ Fmt.d rowNum +:+ ": " +:+ cause +:+ Fmt.nl.

(** The first of the two integer fields that does not parse, if any. *)
Definition bad_integer_field `{Strconv} (row : list string) : option string :=
  match row !! 0%nat with
  | Some c0 =>
      if (Atoi c0).2 is Some _ then Some "Sl No"
      else match row !! 1%nat with
           | Some c1 => if (Atoi c1).2 is Some _ then Some "Class No" else None
           | None => None
           end
  | None => None
  end.

(** The example row of the specification, with a chosen declared total. *)
Definition example_row (total : string) : list string :=
  ["1"; "1"; "E001"; "2024A1001"; "8"; "25"; "9"; "9"; "51"; "40"; total].

(** The same row with a quiz cell that is not a number. *)
Definition bad_quiz_row : list string :=
  ["1"; "1"; "E001"; "2024A1001"; "abc"; "25"; "9"; "9"; "51"; "40"; "91"].

Definition header_row : list string :=
  ["Sl No"; "Class No"; "Emplid"; "Campus ID"; "Quiz"; "MidSem"; "LabTest";
   "WeeklyLabs"; "PreCompre"; "Compre"; "Total"].

(** The sum of a list of floats as a loop computes it: from 0, adding the
    values from left to right. *)
Definition total_of (values : list float64) : float64 :=
  foldl F64.add F64.zero values.

(** The arithmetic mean as the program computes it: that sum divided by the
    number of values. *)
Definition mean_of (values : list float64) : float64 :=
  F64.div (total_of values) (F64.of_int (Z.of_nat (length values))).

(** The records counted for a branch code, in the order of the list. *)
Definition qualifying (branch : string) (students : list Student)
    : list Student :=
  filter (λ s, in_batch s = true ∧ branchCode s = branch) students.

(** The place of a number that is not NaN in the order of [<]: its class
    (negative infinity, negative, zero, positive, positive infinity), then
    exponent and mantissa, negated for negative numbers. *)
Definition order_key (x : float64) : Z * Z * Z :=
  match x with
  | S754_nan | S754_zero _ => (0, 0, 0)
  | S754_infinity s => (if s then -2 else 2, 0, 0)
  | S754_finite s m e => if s then (-1, - e, Zneg m) else (1, e, Zpos m)
  end.

Definition lex_lt (a b : Z * Z * Z) : Prop :=
  a.1.1 < b.1.1 ∨
  (a.1.1 = b.1.1 ∧ (a.1.2 < b.1.2 ∨ (a.1.2 = b.1.2 ∧ a.2 < b.2))).

(** The invariant of the insertion sort on its sorted prefix, kept last
    element first: no element is [less] than one found later in the list. *)
Definition backwards {A} (less : A → A → bool) (l : list A) : Prop :=
  ∀ i j x y, (i < j)%nat → l !! i = Some x → l !! j = Some y → less x y = false.

(** A record known by its identifier and total only. *)
Definition scored (id : string) (total : float64) : Student :=
  mkStudent 0 0 id "" F64.zero F64.zero F64.zero F64.zero F64.zero F64.zero
    total F64.zero.

(** The records with totals 10, 20, 20 and 5 of the specification. *)
Definition example_students : list Student :=
  [scored "E1" (F64.of_int 10); scored "E2" (F64.of_int 20);
   scored "E3" (F64.of_int 20); scored "E4" (F64.of_int 5)].

(** Records with totals 5, NaN, 10 and 20; "NaN" is a cell [ParseFloat]
    accepts. *)
Definition nan_students : list Student :=
  [scored "E1" (F64.of_int 5); scored "E2" S754_nan;
   scored "E3" (F64.of_int 10); scored "E4" (F64.of_int 20)].

(** A store holding the example records in one array, and the slice over
    it. *)
Definition example_store : store := {[ 0%nat := example_students ]}.
Definition example_slice : slice := mkSlice 0 0 4.

(** A run of the program on a sheet holding the header and the example
    row. *)
Definition example_args : list string := ["student"; "marks.xlsx"].

Definition example_open (path : string) : Workbook :=
  Sheet [header_row; example_row "91"].

Definition example_record : Student :=
  mkStudent 1 1 "E001" "2024A1001" (F64.of_int 8) (F64.of_int 25)
    (F64.of_int 9) (F64.of_int 9) (F64.of_int 51) (F64.of_int 40)
    (F64.of_int 91) (F64.of_int 91).

(** The run on that sheet in which every map is ranged over in the order
    [order] makes of its entries. *)
Definition example_run (order : ∀ V, list (string * V) → list (string * V))
    : io unit :=
  (reports [example_record]
     (order _ (map_to_list (computeAverages [example_record])))
     (order _ (map_to_list (computeBranchAverages [example_record])))
     (order _ (map_to_list (rankings_of [example_record]).2)),
   Done tt).

(** The record a data row contributes to the result of [parseExcel], if
    any, and the lines it makes [parseExcel] print. *)
Definition row_record `{Strconv} (rowNum : Z) (row : list string)
    : option Student :=
  if bool_decide (length row < 11)%nat then None
  else match outcome (parseRow rowNum row) with
       | Done (student, None) => Some student
       | _ => None
       end.

Definition row_lines `{Strconv} (rowNum : Z) (row : list string)
    : list string :=
  if bool_decide (length row < 11)%nat then []
  else stdout (parseRow rowNum row) ++
       match outcome (parseRow rowNum row) with
       | Done (_, Some cause) => [rejected_line rowNum cause]
       | _ => []
       end.

(** The sum [parseRow] stores in [ComputedSum]. *)
Definition sum_of_parts (s : Student) : float64 :=
  F64.add (F64.add (F64.add (F64.add (Quiz s) (MidSem s)) (LabTest s))
             (WeeklyLabs s)) (Compre s).

(** Neither NaN nor infinite. *)
Definition is_finite (a : float64) : bool :=
  match a with
  | S754_zero _ | S754_finite _ _ _ => true
  | S754_infinity _ | S754_nan => false
  end.

(** The first line of the block [main] prints for a category. *)
Definition block_header (category : string) : string :=
  Fmt.nl +:+ category +:+ ":" +:+ Fmt.nl.

(** Stores for the records with a NaN total and for no record at all. *)
Definition nan_store : store := {[ 0%nat := nan_students ]}.

(** Workbooks for the edge cases of [main]. *)
Definition header_only_open (path : string) : Workbook := Sheet [header_row].
Definition unreadable_open (path : string) : Workbook :=
  OpenFails "open marks.xlsx: no such file or directory".
Definition empty_sheet_open (path : string) : Workbook := Sheet [].

(** * Row parsing *)

Section ParsingFacts.
Context `{Strconv}.

Lemma parseFloat_empty : parseFloat "" = (F64.zero, None).
Proof. reflexivity. Qed.

(** A row of eleven cells or more whose two integers parse is rejected
    exactly when its last score cell fails; the errors of the six score
    cells before it are overwritten and never looked at. *)
Lemma parseRow_checks_last_score rowNum c0 c1 c2 c3 c4 c5 c6 c7 c8 c9 c10 rest
    slNo classNo :
  Atoi c0 = (slNo, None) → Atoi c1 = (classNo, None) →
  let quiz := (parseFloat c4).1 in
  let midSem := (parseFloat c5).1 in
  let labTest := (parseFloat c6).1 in
  let weeklyLabs := (parseFloat c7).1 in
  let preCompre := (parseFloat c8).1 in
  let compre := (parseFloat c9).1 in
  let total := (parseFloat c10).1 in
  let computedPreCompre :=
    F64.add (F64.add (F64.add quiz midSem) labTest) weeklyLabs in
  let computedSum := F64.add computedPreCompre compre in
  parseRow rowNum
    (c0 :: c1 :: c2 :: c3 :: c4 :: c5 :: c6 :: c7 :: c8 :: c9 :: c10 :: rest) =
  if (parseFloat c10).2 is Some _ then
    ([], Done (Student_zero,
               Some ("invalid numeric data at row " +:+ Fmt.d rowNum)))
  else
    ((if almostEqual computedPreCompre preCompre then []
      else [mismatch_line "PreCompre" rowNum computedPreCompre preCompre]) ++
     (if almostEqual computedSum total then []
      else [mismatch_line "total" rowNum computedSum total]),
     Done (mkStudent slNo classNo c2 c3 quiz midSem labTest weeklyLabs
             preCompre compre total computedSum, None)).
Proof.
  intros H0 H1 quiz midSem labTest weeklyLabs preCompre compre total cp cs.
  subst quiz midSem labTest weeklyLabs preCompre compre total.
  unfold parseRow. cbn [index lookup list_lookup mbind io_bind mret io_ret].
  rewrite H0, H1.
  destruct (parseFloat c4) as [q e4], (parseFloat c5) as [m e5],
    (parseFloat c6) as [l e6], (parseFloat c7) as [w e7],
    (parseFloat c8) as [p e8], (parseFloat c9) as [c e9],
    (parseFloat c10) as [t [e10|]]; cbn [fst snd] in *; [reflexivity|].
  fold cp. fold cs.
  destruct (almostEqual cp p), (almostEqual cs t); reflexivity.
Qed.

Lemma parseRow_bad_integer rowNum row field :
  bad_integer_field row = Some field →
  parseRow rowNum row =
  ([], Done (Student_zero,
             Some ("invalid " +:+ field +:+ " at row " +:+ Fmt.d rowNum))).
Proof.
  unfold bad_integer_field, parseRow, index. intros Hbad.
  destruct (row !! 0%nat) as [c0|] eqn:E0; [|discriminate].
  cbn [mbind io_bind mret io_ret].
  destruct (Atoi c0) as [slNo [e0|]]; cbn [snd] in Hbad.
  { injection Hbad as <-. reflexivity. }
  destruct (row !! 1%nat) as [c1|] eqn:E1; [|discriminate].
  cbn [mbind io_bind mret io_ret].
  destruct (Atoi c1) as [classNo [e1|]]; cbn [snd] in Hbad; [|discriminate].
  injection Hbad as <-. reflexivity.
Qed.

(** What one round of the loop of [parseExcel] does with a row. *)
Lemma parseRows_short i row rest students :
  (length row < 11)%nat →
  parseRows i (row :: rest) students = parseRows (i + 1) rest students.
Proof.
  intros Hlen. cbn [parseRows]. rewrite bool_decide_eq_true_2; done.
Qed.

Lemma parseRows_rejected i row rest students out cause :
  (11 ≤ length row)%nat →
  parseRow (i + 2) row = (out, Done (Student_zero, Some cause)) →
  parseRows i (row :: rest) students =
  (out ++ rejected_line (i + 2) cause :: stdout (parseRows (i + 1) rest students),
   outcome (parseRows (i + 1) rest students)).
Proof.
  intros Hlen Hrow. cbn [parseRows].
  rewrite bool_decide_eq_false_2 by lia.
  rewrite Hrow. cbn [mbind io_bind]. unfold rejected_line, stdout, outcome.
  destruct (parseRows (i + 1) rest students) as [out' r]. reflexivity.
Qed.

Lemma parseRows_accepted i row rest students out student :
  (11 ≤ length row)%nat →
  parseRow (i + 2) row = (out, Done (student, None)) →
  parseRows i (row :: rest) students =
  (out ++ stdout (parseRows (i + 1) rest (students ++ [student])),
   outcome (parseRows (i + 1) rest (students ++ [student]))).
Proof.
  intros Hlen Hrow. cbn [parseRows].
  rewrite bool_decide_eq_false_2 by lia.
  rewrite Hrow. cbn [mbind io_bind]. unfold stdout, outcome.
  destruct (parseRows (i + 1) rest (students ++ [student])) as [out' r].
  reflexivity.
Qed.

(** Every record of the result was already there or comes from a row of
    eleven cells or more that [parseRow] accepted. *)
Lemma parseRows_origin data : ∀ i students out result,
  parseRows i data students = (out, Done result) →
  ∃ new, result = students ++ new ∧
    ∀ s, s ∈ new → ∃ (k : nat) row, data !! k = Some row ∧
      (11 ≤ length row)%nat ∧
      outcome (parseRow (i + Z.of_nat k + 2) row) = Done (s, None).
Proof.
  induction data as [|row rest IH]; intros i students out result Hrun.
  - cbn in Hrun. injection Hrun as _ <-. exists []. split.
    + by rewrite app_nil_r.
    + intros s Hs. by apply elem_of_nil in Hs.
  - cbn [parseRows] in Hrun. case_bool_decide as Hlen.
    + apply IH in Hrun as (new & -> & Hnew). exists new. split; [done|].
      intros s Hs. destruct (Hnew s Hs) as (k & r & Hk & Hr & Hp).
      exists (S k), r. split; [done|]. split; [done|].
      by replace (i + Z.of_nat (S k) + 2) with (i + 1 + Z.of_nat k + 2) by lia.
    + destruct (parseRow (i + 2) row) as [o [[student [cause|]]|]] eqn:Hrow;
        cbn [mbind io_bind] in Hrun.
      * cbn [Printf] in Hrun.
        destruct (parseRows (i + 1) rest students) as [o' r'] eqn:Hrest.
        cbn in Hrun. injection Hrun as _ ->.
        apply IH in Hrest as (new & -> & Hnew). exists new. split; [done|].
        intros s Hs. destruct (Hnew s Hs) as (k & r & Hk & Hr & Hp).
        exists (S k), r. split; [done|]. split; [done|].
        by replace (i + Z.of_nat (S k) + 2) with (i + 1 + Z.of_nat k + 2) by lia.
      * destruct (parseRows (i + 1) rest (students ++ [student]))
          as [o' r'] eqn:Hrest.
        injection Hrun as _ ->.
        apply IH in Hrest as (new & -> & Hnew). exists (student :: new).
        split; [by rewrite <- app_assoc|].
        intros s Hs. apply elem_of_cons in Hs as [->|Hs].
        -- exists 0%nat, row. split; [done|]. split; [lia|].
           replace (i + Z.of_nat 0 + 2) with (i + 2) by lia.
           by rewrite Hrow.
        -- destruct (Hnew s Hs) as (k & r & Hk & Hr & Hp).
           exists (S k), r. split; [done|]. split; [done|].
           by replace (i + Z.of_nat (S k) + 2) with (i + 1 + Z.of_nat k + 2) by lia.
      * discriminate.
Qed.

End ParsingFacts.

(** C1.  The claim asks that a row of at least eleven cells with a non-empty,
    non-numeric cell in any of the seven score columns be rejected.  On the
    row of the specification's example with the quiz cell replaced by "abc",
    [ParseFloat] reports a syntax error for that cell, yet [parseRow] returns
    no error: it produces a record with quiz 0 and two mismatch lines, and
    [parseExcel] keeps that record. *)
Theorem parseRow_accepts_non_numeric_quiz :
  (11 ≤ length bad_quiz_row)%nat ∧
  bad_quiz_row !! 4%nat = Some "abc" ∧
  ParseFloat "abc" = (F64.zero, Some ErrSyntax) ∧
  parseRow 2 bad_quiz_row =
    ([mismatch_line "PreCompre" 2 (F64.of_int 43) (F64.of_int 51);
      mismatch_line "total" 2 (F64.of_int 83) (F64.of_int 91)],
     Done (mkStudent 1 1 "E001" "2024A1001" F64.zero (F64.of_int 25)
             (F64.of_int 9) (F64.of_int 9) (F64.of_int 51) (F64.of_int 40)
             (F64.of_int 91) (F64.of_int 83), None)) ∧
  ∃ student,
    outcome (parseExcel (Sheet [header_row; bad_quiz_row])) =
    Done ([student], None).
Proof.
  repeat split; try (vm_compute; reflexivity).
  eexists. vm_compute. reflexivity.
Qed.

(** C3.  When every field of a row parses, [parseRow] returns the record
    holding exactly the parsed cell values (an empty score cell counting as
    0), whatever the declared subtotals are; a declared value that differs
    from the computed one by 0.01 or more only adds a line naming the row,
    the computed value and the declared value.  On the example row with
    declared total "95" the line cites 91.00 and 95.00 and the record has
    total 95. *)
Theorem parseRow_mismatch_only_reported :
  (∀ (S : Strconv) rowNum c0 c1 c2 c3 c4 c5 c6 c7 c8 c9 c10 rest
     slNo classNo quiz midSem labTest weeklyLabs preCompre compre total,
     Atoi c0 = (slNo, None) → Atoi c1 = (classNo, None) →
     parseFloat c4 = (quiz, None) → parseFloat c5 = (midSem, None) →
     parseFloat c6 = (labTest, None) → parseFloat c7 = (weeklyLabs, None) →
     parseFloat c8 = (preCompre, None) → parseFloat c9 = (compre, None) →
     parseFloat c10 = (total, None) →
     let computedPreCompre :=
       F64.add (F64.add (F64.add quiz midSem) labTest) weeklyLabs in
     let computedSum := F64.add computedPreCompre compre in
     parseRow rowNum
       (c0 :: c1 :: c2 :: c3 :: c4 :: c5 :: c6 :: c7 :: c8 :: c9 :: c10 :: rest) =
     ((if almostEqual computedPreCompre preCompre then []
       else [mismatch_line "PreCompre" rowNum computedPreCompre preCompre]) ++
      (if almostEqual computedSum total then []
       else [mismatch_line "total" rowNum computedSum total]),
      Done (mkStudent slNo classNo c2 c3 quiz midSem labTest weeklyLabs
              preCompre compre total computedSum, None))) ∧
  (∀ S : Strconv, parseFloat "" = (F64.zero, None)) ∧
  parseRow 2 (example_row "95") =
    (["Error: Mismatch in total at row 2. Expected 91.00, Found 95.00" +:+ Fmt.nl],
     Done (mkStudent 1 1 "E001" "2024A1001" (F64.of_int 8) (F64.of_int 25)
             (F64.of_int 9) (F64.of_int 9) (F64.of_int 51) (F64.of_int 40)
             (F64.of_int 95) (F64.of_int 91), None)).
Proof.
  split; [|split].
  - intros S rowNum c0 c1 c2 c3 c4 c5 c6 c7 c8 c9 c10 rest slNo classNo
      quiz midSem labTest weeklyLabs preCompre compre total
      H0 H1 H4 H5 H6 H7 H8 H9 H10 cp cs.
    rewrite (parseRow_checks_last_score rowNum c0 c1 c2 c3 c4 c5 c6 c7 c8 c9
               c10 rest slNo classNo H0 H1).
    rewrite H4, H5, H6, H7, H8, H9, H10. reflexivity.
  - intros S. apply parseFloat_empty.
  - vm_compute. reflexivity.
Qed.

(** The general statement of C3 at the example row whose declared total,
    "91", agrees with the computed one: nothing is printed. *)
Lemma parseRow_mismatch_only_reported_witness :
  parseRow 2 (example_row "91") =
    ([], Done (mkStudent 1 1 "E001" "2024A1001" (F64.of_int 8) (F64.of_int 25)
                 (F64.of_int 9) (F64.of_int 9) (F64.of_int 51) (F64.of_int 40)
                 (F64.of_int 91) (F64.of_int 91), None)).
Proof.
  exact (proj1 parseRow_mismatch_only_reported Reference.strconv 2
           "1" "1" "E001" "2024A1001" "8" "25" "9" "9" "51" "40" "91" []
           1 1 (F64.of_int 8) (F64.of_int 25) (F64.of_int 9) (F64.of_int 9)
           (F64.of_int 51) (F64.of_int 40) (F64.of_int 91)
           eq_refl eq_refl eq_refl eq_refl eq_refl eq_refl eq_refl eq_refl
           eq_refl).
Defined.

(** C8, as amended.  A row whose serial or class-number cell does not parse
    as an integer makes [parseRow] return an error naming the field and the
    row number.  When the row has at least eleven cells, [parseExcel] prints
    one line naming the row and that cause, appends no record, and goes on
    with the remaining rows. *)
Theorem bad_integer_row_is_reported (S : Strconv) (row : list string)
    (field : string) :
  bad_integer_field row = Some field →
  (∀ rowNum,
     parseRow rowNum row =
     ([], Done (Student_zero,
                Some ("invalid " +:+ field +:+ " at row " +:+ Fmt.d rowNum)))) ∧
  ((11 ≤ length row)%nat →
   ∀ i rest students,
     parseRows i (row :: rest) students =
     (rejected_line (i + 2)
        ("invalid " +:+ field +:+ " at row " +:+ Fmt.d (i + 2))
      :: stdout (parseRows (i + 1) rest students),
      outcome (parseRows (i + 1) rest students))).
Proof.
  intros Hbad. split.
  - intros rowNum. by apply parseRow_bad_integer.
  - intros Hlen i rest students.
    apply (parseRows_rejected i row rest students []); [done|].
    by apply parseRow_bad_integer.
Qed.

(** C8 at the example row with serial "x", as the second data row of a
    sheet. *)
Lemma bad_integer_row_is_reported_witness :
  parseRow 3 ("x" :: tail (example_row "91")) =
    ([], Done (Student_zero, Some "invalid Sl No at row 3")) ∧
  parseRows 1 ["x" :: tail (example_row "91")] [] =
    ([rejected_line 3 "invalid Sl No at row 3"], Done []).
Proof.
  pose proof (bad_integer_row_is_reported Reference.strconv
                ("x" :: tail (example_row "91")) "Sl No" eq_refl) as [Hrow Hloop].
  split.
  - exact (Hrow 3).
  - exact (Hloop (le_n 11) 1 [] []).
Defined.

(** C8 as stated fails: a row of fewer than eleven cells whose serial is not
    an integer never reaches [parseRow], and nothing is printed for it. *)
Lemma short_bad_integer_row_prints_nothing :
  bad_integer_field ["x"; "1"] = Some "Sl No" ∧
  parseExcel (Sheet [header_row; ["x"; "1"]]) = ([], Done ([], None)).
Proof. split; reflexivity. Qed.

(** C9, as amended.  A data row of fewer than eleven cells is skipped
    without any output: the loop goes on as if the row were absent.  Every
    record of the result comes from a data row of at least eleven cells, and
    the result does not depend on the header row. *)
Theorem short_rows_are_skipped (S : Strconv) :
  (∀ i row rest students,
     (length row < 11)%nat →
     parseRows i (row :: rest) students = parseRows (i + 1) rest students) ∧
  (∀ header data out students err,
     parseExcel (Sheet (header :: data)) = (out, Done (students, err)) →
     err = None ∧
     ∀ s, s ∈ students → ∃ (k : nat) row,
       data !! k = Some row ∧ (11 ≤ length row)%nat ∧
       outcome (parseRow (Z.of_nat k + 2) row) = Done (s, None)) ∧
  (∀ header header' data,
     parseExcel (Sheet (header :: data)) = parseExcel (Sheet (header' :: data))).
Proof.
  split; [|split].
  - intros i row rest students Hlen. by apply parseRows_short.
  - intros header data out students err Hrun. cbn [parseExcel] in Hrun.
    destruct (parseRows 0 data []) as [o [result|]] eqn:Hrows;
      cbn [mbind io_bind mret io_ret] in Hrun; [|discriminate].
    injection Hrun as _ <- <-. split; [done|].
    apply parseRows_origin in Hrows as (new & -> & Hnew).
    intros s Hs. rewrite app_nil_l in Hs.
    destruct (Hnew s Hs) as (k & row & Hk & Hlen & Hrow).
    exists k, row. by rewrite Z.add_0_l in Hrow.
  - reflexivity.
Qed.

(** C9 on a sheet whose first data row has two cells and whose second is the
    example row. *)
Lemma short_rows_are_skipped_witness :
  parseRows 0 [["1"; "2"]; example_row "91"] [] =
    parseRows 1 [example_row "91"] [] ∧
  ∀ s, s ∈ [example_record] →
    ∃ (k : nat) row,
      [["1"; "2"]; example_row "91"] !! k = Some row ∧ (11 ≤ length row)%nat ∧
      outcome (parseRow (Z.of_nat k + 2) row) = Done (s, None).
Proof.
  destruct (short_rows_are_skipped Reference.strconv) as (Hskip & Horigin & _).
  split.
  - exact (Hskip 0 ["1"; "2"] [example_row "91"] [] (le_S _ _ (le_S _ _ (le_S _ _
             (le_S _ _ (le_S _ _ (le_S _ _ (le_S _ _ (le_S _ _ (le_n 3)))))))))).
  - assert (Hrun : parseExcel (Sheet [header_row; ["1"; "2"]; example_row "91"])
                   = ([], Done ([example_record], None)))
      by (vm_compute; reflexivity).
    exact (proj2 (Horigin header_row [["1"; "2"]; example_row "91"] [] _ None
                    Hrun)).
Defined.

(** C9 as stated fails: nothing is logged for a skipped short row. *)
Lemma short_row_is_not_logged :
  (length ["1"; "2"] < 11)%nat ∧
  stdout (parseExcel (Sheet [header_row; ["1"; "2"]])) = [].
Proof. split; [cbn; lia | reflexivity]. Qed.

(** * Averages *)

Lemma add_to_lookup key v m k :
  add_to key v m !! k =
  if decide (key = k) then Some (F64.add (default F64.zero (m !! key)) v)
  else m !! k.
Proof. unfold add_to. apply lookup_insert. Qed.

Lemma incr_lookup key m k :
  incr key m !! k =
  if decide (key = k) then Some (default 0 (m !! key) + 1) else m !! k.
Proof. unfold incr. apply lookup_insert. Qed.

Lemma sum_step_lookup sum s category :
  category ∈ categories →
  sum_step sum s !! category =
  Some (F64.add (default F64.zero (sum !! category))
          (getScoreByCategory s category)).
Proof.
  intros Hc. unfold categories in Hc.
  repeat (apply elem_of_cons in Hc as [->|Hc]); [..|by apply elem_of_nil in Hc];
    unfold sum_step; repeat (rewrite add_to_lookup; simpl); reflexivity.
Qed.

Lemma sum_step_lookup_other sum s key :
  key ∉ categories → sum_step sum s !! key = sum !! key.
Proof.
  intros Hk. unfold sum_step.
  repeat (rewrite add_to_lookup; case_decide as E;
          [exfalso; apply Hk; rewrite <- E; unfold categories; set_solver|];
          clear E).
  reflexivity.
Qed.

Lemma foldl_sum_step_lookup students : ∀ sum category,
  category ∈ categories → students ≠ [] →
  foldl sum_step sum students !! category =
  Some (foldl F64.add (default F64.zero (sum !! category))
          ((λ s, getScoreByCategory s category) <$> students)).
Proof.
  induction students as [|s rest IH]; intros sum category Hc Hne; [done|].
  cbn [foldl fmap list_fmap].
  destruct rest as [|s' rest'].
  - cbn. by apply sum_step_lookup.
  - rewrite IH by done. by rewrite sum_step_lookup.
Qed.

Lemma foldl_sum_step_lookup_other students : ∀ sum key,
  key ∉ categories → foldl sum_step sum students !! key = sum !! key.
Proof.
  induction students as [|s rest IH]; intros sum key Hk; [done|].
  cbn [foldl]. rewrite IH by done. by apply sum_step_lookup_other.
Qed.

Lemma computeAverages_lookup students category :
  students ≠ [] → category ∈ categories →
  computeAverages students !! category =
  Some (mean_of ((λ s, getScoreByCategory s category) <$> students)).
Proof.
  intros Hne Hc. unfold computeAverages. rewrite lookup_fmap.
  rewrite foldl_sum_step_lookup by done. rewrite lookup_empty.
  cbn [default fmap option_fmap option_map].
  unfold mean_of, total_of. by rewrite length_fmap.
Qed.

(** C10.  On the empty record list [computeAverages] returns the empty map:
    the summing loop creates no key, so the dividing loop visits none, no
    division takes place and no key, hence no NaN or infinite value, is in
    the result. *)
Theorem computeAverages_nil :
  foldl sum_step ∅ [] = ∅ ∧
  computeAverages [] = ∅ ∧
  ∀ key, computeAverages [] !! key = None.
Proof.
  assert (E : computeAverages [] = ∅).
  { unfold computeAverages. cbn [foldl]. apply fmap_empty. }
  split; [reflexivity|]. split; [exact E|].
  intros key. rewrite E. apply lookup_empty.
Qed.




(** * Branch averages *)

(** What the two maps of [computeBranchAverages] hold after the loop. *)
Lemma branch_loop students branch :
  let '(branchTotal, branchCount) := foldl branch_step (∅, ∅) students in
  let q := qualifying branch students in
  if decide (q = []) then
    branchTotal !! branch = None ∧ branchCount !! branch = None
  else
    branchTotal !! branch = Some (total_of (Total <$> q)) ∧
    branchCount !! branch = Some (Z.of_nat (length q)).
Proof.
  induction students as [|s students IH] using rev_ind.
  - cbn. split; apply lookup_empty.
  - rewrite foldl_snoc. destruct (foldl branch_step (∅, ∅) students) as [bt bc].
    unfold qualifying in *. rewrite filter_app. cbn [branch_step]. cbn zeta in *.
    set (q := filter _ students) in *.
    destruct (in_batch s) eqn:Hin;
      [destruct (decide (branchCode s = branch)) as [Hb|Hb]|].
    + rewrite filter_cons_True by (split; [exact Hin | exact Hb]).
      rewrite filter_nil.
      rewrite decide_False by (intros [_ Hnil]%app_eq_nil; discriminate Hnil).
      rewrite Hb, add_to_lookup, incr_lookup, !decide_True by done.
      rewrite fmap_app, length_app. unfold total_of. rewrite foldl_app.
      cbn [length fmap list_fmap foldl].
      destruct (decide (q = [])) as [Hq|Hq].
      * rewrite Hq. destruct IH as [-> ->]. done.
      * destruct IH as [-> ->]. cbn [default]. split; [done|].
        f_equal. unfold id. lia.
    + rewrite filter_cons_False by (intros [_ Heq]; exact (Hb Heq)).
      rewrite filter_nil, app_nil_r.
      by rewrite add_to_lookup, incr_lookup,
        !(decide_False (P:=branchCode s = branch)) by done.
    + rewrite filter_cons_False by (intros [Heq _]; congruence).
      by rewrite filter_nil, app_nil_r.
Qed.

Lemma computeBranchAverages_lookup students branch :
  computeBranchAverages students !! branch =
  if decide (qualifying branch students = []) then None
  else Some (mean_of (Total <$> qualifying branch students)).
Proof.
  unfold computeBranchAverages.
  pose proof (branch_loop students branch) as Hloop.
  destruct (foldl branch_step (∅, ∅) students) as [bt bc].
  rewrite map_lookup_imap. cbn zeta in Hloop.
  destruct (decide (qualifying branch students = [])) as [Hq|Hq].
  - destruct Hloop as [-> _]. done.
  - destruct Hloop as [-> ->]. cbn. unfold mean_of. by rewrite length_fmap.
Qed.

(** [String.prefix] and [Contains] against their meaning. *)
Lemma prefix_spec t : ∀ s, String.prefix t s = true ↔ ∃ b, s = t +:+ b.
Proof.
  induction t as [|c t IH]; intros [|c' s]; cbn.
  - split; [intros _; by exists ""|done].
  - split; [intros _; by exists (String c' s)|done].
  - split; [done|]. intros [b Hb]. discriminate Hb.
  - destruct (ascii_dec c c') as [->|Hne].
    + rewrite IH. split.
      * intros [b ->]. by exists b.
      * intros [b Hb]. injection Hb as ->. by exists b.
    + split; [done|]. intros [b Hb]. injection Hb as -> _. done.
Qed.

Lemma Contains_spec t s :
  Contains s t = true ↔ ∃ a b, s = a +:+ t +:+ b.
Proof.
  induction s as [|c s IH]; cbn [Contains]; rewrite orb_true_iff, prefix_spec.
  - split.
    + intros [[b Hb]|?]; [|done]. by exists "", b.
    + intros ([|? ?] & b & Hb); [|discriminate Hb]. left. by exists b.
  - rewrite IH. split.
    + intros [[b Hb]|(a & b & ->)]; [by exists "", b|by exists (String c a), b].
    + intros ([|c' a] & b & Hb).
      * left. by exists b.
      * right. injection Hb as -> ->. by exists a, b.
Qed.

Lemma in_batch_spec s :
  in_batch s = true ↔
  (6 ≤ String.length (CampusID s))%nat ∧
  substring 0 4 (CampusID s) = "2024" ∧
  ∃ a b, substring 4 2 (CampusID s) = a +:+ "A" +:+ b.
Proof.
  unfold in_batch, branchCode. rewrite <- Contains_spec.
  case_bool_decide as Hlen.
  - split; [done|]. intros [? _]. lia.
  - rewrite andb_true_iff, bool_decide_eq_true. split.
    + intros [? ?]. split; [lia|done].
    + intros (_ & ? & ?). done.
Qed.

(** C4.  A record is counted exactly when its campus identifier has at least
    six characters, starts with "2024", and has a branch code (characters 4
    and 5) that contains "A".  The result maps a branch code to the mean of
    [Total] over the counted records with that code, in the order of the
    list, and has no entry for a code without counted records; the other
    records play no part. *)
Theorem computeBranchAverages_mean :
  (∀ s, in_batch s = true ↔
        (6 ≤ String.length (CampusID s))%nat ∧
        substring 0 4 (CampusID s) = "2024" ∧
        ∃ a b, substring 4 2 (CampusID s) = a +:+ "A" +:+ b) ∧
  (∀ s, branchCode s = substring 4 2 (CampusID s)) ∧
  ∀ students branch,
    computeBranchAverages students !! branch =
    if decide (qualifying branch students = []) then None
    else Some (mean_of (Total <$> qualifying branch students)).
Proof.
  split; [exact in_batch_spec|]. split; [reflexivity|].
  exact computeBranchAverages_lookup.
Qed.

(** * The order of floats *)

Lemma ltb_key x y :
  F64.is_nan x = false → F64.is_nan y = false →
  F64.ltb x y = true ↔ lex_lt (order_key x) (order_key y).
Proof.
  unfold F64.ltb, SFltb, SFcompare, lex_lt.
  destruct x as [sx|sx| |sx mx ex], y as [sy|sy| |sy my ey]; try discriminate;
    intros _ _; try destruct sx; try destruct sy; cbn;
    try (split; [done|lia]); try (split; [lia|done]);
    try (split; [intros _; lia|done]).
  - destruct (Z.compare_spec ex ey); try (split; [done|lia]);
      try (split; [intros _; lia|done]).
    subst. rewrite Pos.compare_cont_spec. cbn.
    destruct (Pos.compare_spec mx my); cbn; split; intros; try done; lia.
  - destruct (Z.compare_spec ex ey); try (split; [done|lia]);
      try (split; [intros _; lia|done]).
    subst. rewrite Pos.compare_cont_spec.  cbn.
    destruct (Pos.compare_spec mx my); cbn; split; intros; try done; lia.
Qed.

Lemma leb_key x y :
  F64.is_nan x = false → F64.is_nan y = false →
  SFleb x y = true ↔ ¬ lex_lt (order_key y) (order_key x).
Proof.
  unfold SFleb, SFcompare, lex_lt.
  destruct x as [sx|sx| |sx mx ex], y as [sy|sy| |sy my ey]; try discriminate;
    intros _ _; try destruct sx; try destruct sy; cbn;
    try (split; [done|lia]); try (split; [lia|done]);
    try (split; [intros _; lia|done]).
  - destruct (Z.compare_spec ex ey); try (split; [done|lia]);
      try (split; [intros _; lia|done]).
    subst. rewrite Pos.compare_cont_spec. cbn.
    destruct (Pos.compare_spec mx my); cbn; split; intros; try done; lia.
  - destruct (Z.compare_spec ex ey); try (split; [done|lia]);
      try (split; [intros _; lia|done]).
    subst. rewrite Pos.compare_cont_spec.  cbn.
    destruct (Pos.compare_spec mx my); cbn; split; intros; try done; lia.
Qed.

(** * The insertion sort meets the contract of [sort.Slice] *)

Section InsertionFacts.
Context {A : Type} (less : A → A → bool).

Lemma insert_perm x before : Insertion.insert less x before ≡ₚ x :: before.
Proof.
  induction before as [|y rest IH]; cbn; [done|].
  destruct (less x y); [|done].
  rewrite IH. apply Permutation_swap.
Qed.

Lemma insertion_loop_perm l : ∀ before,
  foldl (λ before x, Insertion.insert less x before) before l ≡ₚ before ++ l.
Proof.
  induction l as [|x l IH]; intros before; cbn.
  - by rewrite app_nil_r.
  - rewrite IH, insert_perm. apply Permutation_middle.
Qed.

Lemma insertion_sort_perm l : Insertion.sort less l ≡ₚ l.
Proof.
  unfold Insertion.sort. rewrite reverse_Permutation.
  by rewrite insertion_loop_perm.
Qed.

Lemma backwards_cons x l :
  backwards less (x :: l) ↔ (∀ y, y ∈ l → less x y = false) ∧ backwards less l.
Proof.
  split.
  - intros Hb. split.
    + intros y [j Hj]%list_elem_of_lookup.
      apply (Hb 0%nat (S j) x y); [lia|done|done].
    + intros i j a b Hij Hi Hj. apply (Hb (S i) (S j) a b); [lia|done|done].
  - intros [Hx Hl] [|i] [|j] a b Hij Hi Hj; try lia.
    + injection Hi as <-. apply Hx. by eapply list_elem_of_lookup_2.
    + apply (Hl i j a b); [lia|done|done].
Qed.

Lemma insert_backwards (P : A → Prop) x before :
  (∀ a, P a → less a a = false) →
  (∀ a b c, P a → P b → P c → less a b = true → less b c = true → less a c = true) →
  (∀ a b c, P a → P b → P c → less a b = false → less b c = false → less a c = false) →
  P x → (∀ y, y ∈ before → P y) →
  backwards less before → backwards less (Insertion.insert less x before).
Proof.
  intros Hirr Htr Hneg Hx. induction before as [|y rest IH]; intros HP Hb; cbn.
  - intros [|i] [|j] a b Hij Hi Hj; try lia; done.
  - apply backwards_cons in Hb as [Hy Hrest].
    assert (Py : P y) by (apply HP; left).
    assert (Prest : ∀ z, z ∈ rest → P z) by (intros z Hz; apply HP; by right).
    destruct (less x y) eqn:Hxy.
    + apply backwards_cons. split; [|by apply IH].
      intros z Hz. rewrite insert_perm in Hz.
      apply elem_of_cons in Hz as [->|Hz]; [|by apply Hy].
      destruct (less y x) eqn:Hyx; [|done].
      rewrite <- (Hirr x Hx). symmetry. by apply (Htr x y x).
    + apply backwards_cons. split; [|by apply backwards_cons].
      intros z [->|Hz]%elem_of_cons; [done|].
      apply (Hneg x y z); auto.
Qed.

Lemma insertion_loop_backwards (P : A → Prop) l :
  (∀ a, P a → less a a = false) →
  (∀ a b c, P a → P b → P c → less a b = true → less b c = true → less a c = true) →
  (∀ a b c, P a → P b → P c → less a b = false → less b c = false → less a c = false) →
  ∀ before, (∀ y, y ∈ before → P y) → (∀ y, y ∈ l → P y) →
  backwards less before →
  backwards less (foldl (λ before x, Insertion.insert less x before) before l).
Proof.
  intros Hirr Htr Hneg. induction l as [|x l IH]; intros before HP Hl Hb; cbn.
  - done.
  - apply IH.
    + intros y Hy. rewrite insert_perm in Hy.
      apply elem_of_cons in Hy as [->|Hy]; [apply Hl; left|by apply HP].
    + intros y Hy. apply Hl. by right.
    + apply (insert_backwards P); auto. apply Hl. left.
Qed.

Lemma insertion_sort_in_order l :
  transitive_ordering less l → in_order less (Insertion.sort less l).
Proof.
  intros (Hirr & Htr & Hneg). unfold Insertion.sort.
  assert (Hb : backwards less
                 (foldl (λ before x, Insertion.insert less x before) [] l)).
  { apply (insertion_loop_backwards (λ x, x ∈ l)); auto.
    - intros y Hy. by apply elem_of_nil in Hy.
    - intros [|i] [|j] a b Hij Hi Hj; done. }
  set (r := foldl _ [] l) in *.
  intros i j x y Hij Hi Hj.
  assert (Hlen : (j < length r)%nat).
  { apply lookup_lt_Some in Hj. by rewrite length_reverse in Hj. }
  rewrite reverse_lookup in Hi by lia. rewrite reverse_lookup in Hj by lia.
  apply (Hb (length r - S j)%nat (length r - S i)%nat y x); [lia|done|done].
Qed.

End InsertionFacts.

#[global] Instance insertion_spec : @SortSpec Insertion.sorter.
Proof.
  split.
  - intros A less l. apply insertion_sort_perm.
  - intros A less l. apply insertion_sort_in_order.
Qed.

(** * Ranking *)

Section RankingFacts.
Context `{Sort}.

Lemma rank_step_eq students h rankings category :
  rank_step students (h, rankings) category =
  (<[fresh (dom h) := sortSlice (higher category) (load h students)]> h,
   <[category := mkSlice (fresh (dom h)) 0 (min 3 (length (load h students)))]>
     rankings).
Proof.
  unfold rank_step, alloc, save, load, upto. cbn [base off len].
  rewrite !lookup_insert_eq. cbn [default].
  rewrite drop_0, firstn_all, take_0, app_nil_l.
  rewrite Nat.add_0_l, drop_all, app_nil_r.
  by rewrite insert_insert_eq.
Qed.

Lemma fresh_unused (h : store) : h !! fresh (dom h) = None.
Proof. apply not_elem_of_dom, is_fresh. Qed.

Lemma load_insert_ne h s b arr :
  b ≠ base s → load (<[b := arr]> h) s = load h s.
Proof. intros Hne. unfold load. by rewrite lookup_insert_ne. Qed.

Lemma load_subseteq (h h' : store) s :
  h ⊆ h' → is_Some (h !! base s) → load h' s = load h s.
Proof.
  intros Hsub [arr Harr]. unfold load.
  by rewrite (lookup_weaken _ _ _ _ Harr Hsub), Harr.
Qed.

(** The loop of [rankStudents] over any list of categories. *)
Lemma rank_loop students cs : ∀ h rankings,
  is_Some (h !! base students) →
  ∃ h' rankings',
    foldl (rank_step students) (h, rankings) cs = (h', rankings') ∧
    h ⊆ h' ∧
    (∀ c, c ∉ cs → rankings' !! c = rankings !! c) ∧
    (∀ c, c ∈ cs → ∃ s,
        rankings' !! c = Some s ∧ h !! base s = None ∧
        load h' s = top3 c (load h students)) ∧
    (∀ c1 c2 s1 s2, c1 ∈ cs → c2 ∈ cs → c1 ≠ c2 →
        rankings' !! c1 = Some s1 → rankings' !! c2 = Some s2 →
        base s1 ≠ base s2).
Proof.
  induction cs as [|c cs IH]; intros h rankings Hvalid.
  - exists h, rankings. cbn. split; [done|]. split; [done|]. split; [done|].
    split; intros; exfalso; eapply not_elem_of_nil; eauto.
  - cbn [foldl]. rewrite rank_step_eq.
    set (b := fresh (dom h)). set (l := load h students).
    assert (Hb : h !! b = None) by apply fresh_unused.
    assert (Hbs : b ≠ base students).
    { intros ->. rewrite Hb in Hvalid. by destruct Hvalid. }
    set (h1 := <[b := sortSlice (higher c) l]> h).
    assert (Hsub1 : h ⊆ h1) by (by apply insert_subseteq).
    assert (Hl1 : load h1 students = l) by (by apply load_insert_ne).
    destruct (IH h1 (<[c := mkSlice b 0 (min 3 (length l))]> rankings))
      as (h' & r' & Hrun & Hsub & Hother & Hin & Hdist).
    { unfold h1. by rewrite lookup_insert_ne. }
    exists h', r'. split; [done|].
    assert (Hc : c ∉ cs → r' !! c = Some (mkSlice b 0 (min 3 (length l))) ∧
                          load h' (mkSlice b 0 (min 3 (length l))) = top3 c l).
    { intros Hc. split.
      - by rewrite Hother, lookup_insert_eq.
      - unfold load. cbn [base off len].
        rewrite (lookup_weaken h1 h' b (sortSlice (higher c) l)); [done| |done].
        unfold h1. by rewrite lookup_insert_eq. }
    split; [by etrans|]. split; [|split].
    + intros c' [Hne Hc']%not_elem_of_cons.
      by rewrite Hother, lookup_insert_ne.
    + intros c' Hc'. destruct (decide (c' ∈ cs)) as [Hcs|Hcs].
      * destruct (Hin c' Hcs) as (s & Hs & Hnew & Hload).
        exists s. split; [done|]. split.
        -- destruct (h !! base s) eqn:E; [|done].
           by rewrite (lookup_weaken _ _ _ _ E Hsub1) in Hnew.
        -- by rewrite Hload, Hl1.
      * apply elem_of_cons in Hc' as [->|?]; [|done].
        destruct (Hc Hcs) as [Hr Hload].
        eexists. split; [exact Hr|]. split; [exact Hb|exact Hload].
    + assert (Hfirst : ∀ c' s s', c ∉ cs → c' ∈ cs →
                r' !! c = Some s → r' !! c' = Some s' → base s ≠ base s').
      { intros c' s s' Hcs Hc' Hs Hs'.
        destruct (Hc Hcs) as [Hr _]. rewrite Hr in Hs. injection Hs as <-.
        destruct (Hin c' Hc') as (s'' & Hs'' & Hnew & _).
        rewrite Hs' in Hs''. injection Hs'' as <-. cbn [base].
        intros Heq. rewrite <- Heq in Hnew. unfold h1 in Hnew.
        by rewrite lookup_insert_eq in Hnew. }
      intros c1 c2 s1 s2 Hc1 Hc2 Hne Hs1 Hs2.
      destruct (decide (c1 ∈ cs)) as [Hcs1|Hcs1],
               (decide (c2 ∈ cs)) as [Hcs2|Hcs2].
      * by apply (Hdist c1 c2).
      * apply elem_of_cons in Hc2 as [->|?]; [|done].
        intros Heq. by apply (Hfirst c1 s2 s1).
      * apply elem_of_cons in Hc1 as [->|?]; [|done].
        by apply (Hfirst c2 s1 s2).
      * apply elem_of_cons in Hc1 as [->|?]; [|done].
        apply elem_of_cons in Hc2 as [->|?]; done.
Qed.

End RankingFacts.

Lemma min_le_r a b : (min a b ≤ b)%nat.
Proof. unfold min. case_bool_decide; lia. Qed.

Lemma min_3_le a : (min 3 a ≤ 3)%nat.
Proof. unfold min. case_bool_decide; lia. Qed.

(** On records whose scores are not NaN, [higher] is a transitive ordering
    and "not higher" is [>=]. *)
Lemma higher_transitive_ordering category l :
  (∀ s, s ∈ l → F64.is_nan (getScoreByCategory s category) = false) →
  transitive_ordering (higher category) l.
Proof.
  intros Hnan. unfold higher, F64.gtb. split; [|split].
  - intros x Hx. apply not_true_iff_false.
    rewrite (ltb_key _ _ (Hnan x Hx) (Hnan x Hx)). unfold lex_lt. lia.
  - intros x y z Hx Hy Hz.
    rewrite (ltb_key _ _ (Hnan y Hy) (Hnan x Hx)),
      (ltb_key _ _ (Hnan z Hz) (Hnan y Hy)),
      (ltb_key _ _ (Hnan z Hz) (Hnan x Hx)).
    unfold lex_lt. lia.
  - intros x y z Hx Hy Hz. rewrite <- !not_true_iff_false.
    rewrite (ltb_key _ _ (Hnan y Hy) (Hnan x Hx)),
      (ltb_key _ _ (Hnan z Hz) (Hnan y Hy)),
      (ltb_key _ _ (Hnan z Hz) (Hnan x Hx)).
    unfold lex_lt. lia.
Qed.

Lemma not_higher_geb category x y :
  F64.is_nan (getScoreByCategory x category) = false →
  F64.is_nan (getScoreByCategory y category) = false →
  higher category y x = false →
  F64.geb (getScoreByCategory x category) (getScoreByCategory y category) = true.
Proof.
  intros Hx Hy. unfold higher, F64.gtb, F64.geb.
  rewrite <- not_true_iff_false. change SFltb with F64.ltb.
  rewrite (ltb_key _ _ Hx Hy), (leb_key _ _ Hy Hx). done.
Qed.

Section Top3.
Context `{SortSpec}.

Lemma top3_spec category l :
  (∀ s, s ∈ l → F64.is_nan (getScoreByCategory s category) = false) →
  let rest := drop (min 3 (length l)) (sortSlice (higher category) l) in
  top3 category l ++ rest ≡ₚ l ∧
  length (top3 category l) = min 3 (length l) ∧
  (∀ i j x y, (i < j)%nat →
     top3 category l !! i = Some x → top3 category l !! j = Some y →
     F64.geb (getScoreByCategory x category) (getScoreByCategory y category)
     = true) ∧
  (∀ x y, x ∈ top3 category l → y ∈ rest →
     F64.geb (getScoreByCategory x category) (getScoreByCategory y category)
     = true).
Proof.
  intros Hnan rest. unfold top3 in *. subst rest.
  set (k := min 3 (length l)). set (sorted := sortSlice (higher category) l).
  assert (Hperm : sorted ≡ₚ l) by apply sortSlice_perm.
  assert (Hord : in_order (higher category) sorted).
  { apply sortSlice_in_order. by apply higher_transitive_ordering. }
  assert (Hnan' : ∀ s, s ∈ sorted →
            F64.is_nan (getScoreByCategory s category) = false).
  { intros s Hs. apply Hnan. by rewrite <- Hperm. }
  assert (Hk : (k ≤ length sorted)%nat).
  { rewrite Hperm. apply min_le_r. }
  split; [by rewrite take_drop|]. split; [rewrite length_take; lia|]. split.
  - intros i j x y Hij Hi Hj.
    apply lookup_take_Some in Hi as [Hi _]. apply lookup_take_Some in Hj as [Hj _].
    apply not_higher_geb.
    + apply Hnan'. by eapply list_elem_of_lookup_2.
    + apply Hnan'. by eapply list_elem_of_lookup_2.
    + by apply (Hord i j).
  - intros x y [i Hi]%list_elem_of_lookup [j Hj]%list_elem_of_lookup.
    apply lookup_take_Some in Hi as [Hi Hik]. rewrite lookup_drop in Hj.
    apply not_higher_geb.
    + apply Hnan'. by eapply list_elem_of_lookup_2.
    + apply Hnan'. by eapply list_elem_of_lookup_2.
    + apply (Hord i (k + j)%nat); [lia|done|done].
Qed.

End Top3.

Lemma load_alloc h l :
  is_Some ((alloc h l).1 !! base (alloc h l).2) ∧
  load (alloc h l).1 (alloc h l).2 = l ∧
  h ⊆ (alloc h l).1.
Proof.
  unfold alloc, load. cbn [fst snd base off len].
  rewrite lookup_insert_eq. cbn [default]. split; [by eexists|]. split.
  - by rewrite drop_0, firstn_all.
  - apply insert_subseteq, fresh_unused.
Qed.

Section Example.
Context `{SortSpec}.

Lemma example_students_no_nan s :
  s ∈ example_students → F64.is_nan (getScoreByCategory s "Total") = false.
Proof.
  unfold example_students. intros Hs.
  repeat (apply elem_of_cons in Hs as [->|Hs]; [reflexivity|]).
  by apply elem_of_nil in Hs.
Qed.

Lemma top3_example :
  top3 "Total" example_students ≡ₚ
    [scored "E1" (F64.of_int 10); scored "E2" (F64.of_int 20);
     scored "E3" (F64.of_int 20)] ∧
  scored "E4" (F64.of_int 5) ∉ top3 "Total" example_students.
Proof.
  destruct (top3_spec "Total" example_students example_students_no_nan)
    as (Hperm & Hlen & _ & Hdom).
  set (top := top3 "Total" example_students) in *.
  set (rest := drop _ _) in *.
  assert (Hrest : length rest = 1%nat).
  { apply Permutation_length in Hperm. rewrite length_app, Hlen in Hperm.
    change (min 3 (length example_students)) with 3%nat in Hperm.
    cbn [length example_students] in Hperm. lia. }
  destruct rest as [|y [|? ?]]; try discriminate Hrest. clear Hrest.
  assert (Hy : y ∈ example_students).
  { rewrite <- Hperm. apply elem_of_app. right. left. }
  assert (Hlow : ∀ x, x ∈ top →
            F64.geb (Total x) (Total y) = true).
  { intros x Hx. apply (Hdom x y Hx). left. }
  assert (Hcut : top ≡ₚ [scored "E1" (F64.of_int 10); scored "E2" (F64.of_int 20);
                          scored "E3" (F64.of_int 20)]).
  { unfold example_students in *.
    repeat (apply elem_of_cons in Hy as [->|Hy]); [..|by apply elem_of_nil in Hy].
    - apply (Permutation_app_inv top [] [] [_; _; _]) in Hperm.
      rewrite app_nil_r in Hperm.
      assert (Hin : scored "E4" (F64.of_int 5) ∈ top)
        by (rewrite Hperm; set_solver).
      apply Hlow in Hin. discriminate Hin.
    - apply (Permutation_app_inv top [] [_] [_; _]) in Hperm.
      rewrite app_nil_r in Hperm.
      assert (Hin : scored "E4" (F64.of_int 5) ∈ top)
        by (rewrite Hperm; set_solver).
      apply Hlow in Hin. discriminate Hin.
    - apply (Permutation_app_inv top [] [_; _] [_]) in Hperm.
      rewrite app_nil_r in Hperm.
      assert (Hin : scored "E4" (F64.of_int 5) ∈ top)
        by (rewrite Hperm; set_solver).
      apply Hlow in Hin. discriminate Hin.
    - apply (Permutation_app_inv top [] [_; _; _] []) in Hperm.
      by rewrite app_nil_r in Hperm. }
  split; [exact Hcut|].
  rewrite Hcut. intros Hin.
  repeat (apply elem_of_cons in Hin as [Hin|Hin]; [discriminate Hin|]).
  by apply elem_of_nil in Hin.
Qed.

End Example.

(** What [main] gets from [rankStudents]: every category has a ranking,
    which holds the first records of the sorted copy of the list. *)
Lemma rankings_of_spec `{Sort} students :
  ∃ h' rankings,
    rankings_of students = (h', rankings) ∧
    (∀ c, c ∈ categories → ∃ s,
        rankings !! c = Some s ∧ load h' s = top3 c students) ∧
    (∀ c s, rankings !! c = Some s → c ∈ categories).
Proof.
  unfold rankings_of, alloc.
  set (b := fresh (dom (∅ : store))).
  set (h0 := <[b := students]> (∅ : store)).
  set (s0 := mkSlice b 0 (length students)).
  assert (Hvalid : is_Some (h0 !! base s0)).
  { unfold h0. cbn [base s0]. rewrite lookup_insert_eq. by eexists. }
  assert (Hload0 : load h0 s0 = students).
  { unfold load, h0. cbn [base off len s0]. rewrite lookup_insert_eq.
    cbn [default]. by rewrite drop_0, firstn_all. }
  unfold rankStudents.
  destruct (rank_loop s0 categories h0 ∅ Hvalid)
    as (h' & rankings & Hrun & _ & Hother & Hin & _).
  exists h', rankings. split; [exact Hrun|]. split.
  - intros c Hc. destruct (Hin c Hc) as (s & Hs & _ & Hload).
    exists s. split; [exact Hs|]. by rewrite Hload, Hload0.
  - intros c s Hs. destruct (decide (c ∈ categories)) as [|Hc]; [done|].
    rewrite (Hother c Hc), lookup_empty in Hs. discriminate Hs.
Qed.

(** C7.  [rankStudents] leaves every array that was in the store as it was,
    so the records seen through [students] are the same, in the same order,
    after the call.  Each category is ranked in an array of its own, not in
    the store before the call and shared with no other category, and at the
    end of the call still holds the first records of its own sorted copy:
    ranking one category alters no other ranking. *)
Theorem rankStudents_leaves_input (sorter : Sort) (h : store) (students : slice) :
  is_Some (h !! base students) →
  ∃ h' rankings,
    rankStudents h students = (h', rankings) ∧
    (∀ b arr, h !! b = Some arr → h' !! b = Some arr) ∧
    load h' students = load h students ∧
    (∀ c, c ∈ categories → ∃ s,
        rankings !! c = Some s ∧ h !! base s = None ∧
        load h' s = top3 c (load h students)) ∧
    (∀ c1 c2 s1 s2, c1 ≠ c2 →
        rankings !! c1 = Some s1 → rankings !! c2 = Some s2 →
        base s1 ≠ base s2).
Proof.
  intros Hvalid. unfold rankStudents.
  destruct (rank_loop students categories h ∅ Hvalid)
    as (h' & rankings & Hrun & Hsub & Hother & Hin & Hdist).
  exists h', rankings. split; [done|]. split; [|split; [|split]].
  - intros b arr Hb. by eapply lookup_weaken.
  - by apply load_subseteq.
  - exact Hin.
  - intros c1 c2 s1 s2 Hne Hs1 Hs2.
    assert (Hdom : ∀ c s, rankings !! c = Some s → c ∈ categories).
    { intros c s Hs. destruct (decide (c ∈ categories)) as [|Hc]; [done|].
      rewrite (Hother c Hc), lookup_empty in Hs. discriminate Hs. }
    apply (Hdist c1 c2); eauto.
Qed.

(** C7 on the store holding the four example records. *)
Lemma rankStudents_leaves_input_witness :
  ∃ h' rankings,
    rankStudents example_store example_slice = (h', rankings) ∧
    (∀ b arr, example_store !! b = Some arr → h' !! b = Some arr) ∧
    load h' example_slice = load example_store example_slice ∧
    (∀ c, c ∈ categories → ∃ s,
        rankings !! c = Some s ∧ example_store !! base s = None ∧
        load h' s = top3 c (load example_store example_slice)) ∧
    (∀ c1 c2 s1 s2, c1 ≠ c2 →
        rankings !! c1 = Some s1 → rankings !! c2 = Some s2 →
        base s1 ≠ base s2).
Proof.
  exact (rankStudents_leaves_input Insertion.sorter example_store example_slice
           (ex_intro _ example_students eq_refl)).
Defined.

(** C5, as amended.  When no record of the list has NaN as its score in a
    category, the ranking of that category holds exactly [min(3, n)]
    records, in descending order of that score, and each of them scores at
    least as much as every record left out.  For the records with totals 10,
    20, 20 and 5 the ranking by total holds the two records with 20 and the
    one with 10, and not the one with 5. *)
Theorem rankStudents_top3_without_nan (sorter : Sort) (spec : SortSpec) :
  (∀ h students category,
     is_Some (h !! base students) → category ∈ categories →
     (∀ s, s ∈ load h students →
        F64.is_nan (getScoreByCategory s category) = false) →
     ∃ h' rankings s rest,
       rankStudents h students = (h', rankings) ∧
       rankings !! category = Some s ∧
       load h' s ++ rest ≡ₚ load h students ∧
       length (load h' s) = min 3 (length (load h students)) ∧
       (∀ i j x y, (i < j)%nat →
          load h' s !! i = Some x → load h' s !! j = Some y →
          F64.geb (getScoreByCategory x category)
            (getScoreByCategory y category) = true) ∧
       (∀ x y, x ∈ load h' s → y ∈ rest →
          F64.geb (getScoreByCategory x category)
            (getScoreByCategory y category) = true)) ∧
  (∃ h' rankings s,
     rankings_of example_students = (h', rankings) ∧
     rankings !! "Total" = Some s ∧
     load h' s ≡ₚ [scored "E1" (F64.of_int 10); scored "E2" (F64.of_int 20);
                   scored "E3" (F64.of_int 20)] ∧
     scored "E4" (F64.of_int 5) ∉ load h' s).
Proof.
  split.
  - intros h students category Hvalid Hc Hnan.
    destruct (rank_loop students categories h ∅ Hvalid)
      as (h' & rankings & Hrun & _ & _ & Hin & _).
    destruct (Hin category Hc) as (s & Hs & _ & Hload).
    destruct (top3_spec category (load h students) Hnan)
      as (Hperm & Hlen & Hdesc & Hdom).
    exists h', rankings, s. eexists.
    split; [exact Hrun|]. split; [exact Hs|]. rewrite Hload.
    split; [exact Hperm|]. split; [exact Hlen|]. split; [exact Hdesc|exact Hdom].
  - destruct (rankings_of_spec example_students)
      as (h' & rankings & Hrun & Hin & _).
    destruct (Hin "Total" ltac:(unfold categories; repeat constructor))
      as (s & Hs & Hload).
    exists h', rankings, s. split; [exact Hrun|]. split; [exact Hs|].
    rewrite Hload. exact top3_example.
Qed.

(** C5 with the insertion sort, on the example records in a store. *)
Lemma rankStudents_top3_without_nan_witness :
  ∃ h' rankings s rest,
    rankStudents example_store example_slice = (h', rankings) ∧
    rankings !! "Total" = Some s ∧
    load h' s ++ rest ≡ₚ load example_store example_slice ∧
    length (load h' s) = min 3 (length (load example_store example_slice)) ∧
    (∀ i j x y, (i < j)%nat →
       load h' s !! i = Some x → load h' s !! j = Some y →
       F64.geb (getScoreByCategory x "Total") (getScoreByCategory y "Total")
       = true) ∧
    (∀ x y, x ∈ load h' s → y ∈ rest →
       F64.geb (getScoreByCategory x "Total") (getScoreByCategory y "Total")
       = true).
Proof.
  apply (proj1 (rankStudents_top3_without_nan Insertion.sorter insertion_spec)
           example_store example_slice "Total").
  - exact (ex_intro _ example_students eq_refl).
  - unfold categories. repeat constructor.
  - exact example_students_no_nan.
Defined.

(** C5 as stated fails.  With the insertion sort that [sort.Slice] runs on
    four records, the totals 5, NaN, 10, 20 are ranked 5, NaN, 20: the
    ranking is not in descending order, and the record with 10 is left out
    although a ranked record scores only 5. *)
Lemma ranking_with_nan_is_not_top3 :
  ∃ h' rankings s,
    rankings_of nan_students = (h', rankings) ∧
    rankings !! "Total" = Some s ∧
    load h' s = [scored "E1" (F64.of_int 5); scored "E2" S754_nan;
                 scored "E4" (F64.of_int 20)] ∧
    scored "E3" (F64.of_int 10) ∈ nan_students ∧
    (scored "E3" (F64.of_int 10) ∉ load h' s) ∧
    F64.geb (F64.of_int 5) (F64.of_int 20) = false ∧
    F64.geb (F64.of_int 5) (F64.of_int 10) = false.
Proof.
  destruct (rankings_of_spec nan_students) as (h' & rankings & Hrun & Hin & _).
  destruct (Hin "Total" ltac:(unfold categories; repeat constructor))
    as (s & Hs & Hload).
  assert (Htop : top3 "Total" nan_students =
                 [scored "E1" (F64.of_int 5); scored "E2" S754_nan;
                  scored "E4" (F64.of_int 20)]) by (vm_compute; reflexivity).
  exists h', rankings, s. split; [exact Hrun|]. split; [exact Hs|].
  rewrite Hload, Htop. split; [reflexivity|].
  split; [unfold nan_students; repeat constructor|].
  split; [|split; reflexivity].
  intros Hin'.
  repeat (apply elem_of_cons in Hin' as [Hin'|Hin']; [discriminate Hin'|]).
  by apply elem_of_nil in Hin'.
Qed.

(** * The program *)



Lemma example_parse :
  parseExcel (example_open "marks.xlsx") = ([], Done ([example_record], None)).
Proof. vm_compute. reflexivity. Qed.

(** Every reordering of the map entries gives a run of the example. *)
Lemma example_run_possible (order : ∀ V, list (string * V) → list (string * V)) :
  (∀ V (l : list (string * V)), order V l ≡ₚ l) →
  main_run example_args example_open (example_run order).
Proof.
  intros Horder. unfold main_run, example_args. rewrite example_parse.
  eexists _, _, _. split; [apply Horder|]. split; [apply Horder|].
  split; [apply Horder|]. reflexivity.
Qed.



(** * More on parsing *)

Section MoreParsing.
Context `{Strconv}.

Lemma row_cells (row : list string) :
  (11 ≤ length row)%nat →
  ∃ c0 c1 c2 c3 c4 c5 c6 c7 c8 c9 c10 rest,
    row = c0 :: c1 :: c2 :: c3 :: c4 :: c5 :: c6 :: c7 :: c8 :: c9 :: c10 :: rest.
Proof.
  intros Hlen.
  do 11 (destruct row as [|? row]; [cbn in Hlen; lia|]).
  by eexists _, _, _, _, _, _, _, _, _, _, _, _.
Qed.

(** The three ways [parseRow] ends on a row of eleven cells or more. *)
Lemma parseRow_cases rowNum row :
  (11 ≤ length row)%nat →
  (∃ field, bad_integer_field row = Some field ∧
     parseRow rowNum row =
     ([], Done (Student_zero,
                Some ("invalid " +:+ field +:+ " at row " +:+ Fmt.d rowNum)))) ∨
  (bad_integer_field row = None ∧
   parseRow rowNum row =
     ([], Done (Student_zero,
                Some ("invalid numeric data at row " +:+ Fmt.d rowNum)))) ∨
  (bad_integer_field row = None ∧
   ∃ out s, parseRow rowNum row = (out, Done (s, None)) ∧
     ComputedSum s = sum_of_parts s ∧
     out =
       (if almostEqual (F64.add (F64.add (F64.add (Quiz s) (MidSem s))
                                   (LabTest s)) (WeeklyLabs s)) (PreCompre s)
        then []
        else [mismatch_line "PreCompre" rowNum
                (F64.add (F64.add (F64.add (Quiz s) (MidSem s)) (LabTest s))
                   (WeeklyLabs s)) (PreCompre s)]) ++
       (if almostEqual (sum_of_parts s) (Total s) then []
        else [mismatch_line "total" rowNum (sum_of_parts s) (Total s)])).
Proof.
  intros Hlen.
  destruct (row_cells row Hlen)
    as (c0 & c1 & c2 & c3 & c4 & c5 & c6 & c7 & c8 & c9 & c10 & rest & ->).
  destruct (bad_integer_field _) as [field|] eqn:Hbad.
  { left. exists field. split; [done|]. by apply parseRow_bad_integer. }
  right. unfold bad_integer_field in Hbad. cbn [lookup list_lookup] in Hbad.
  destruct (Atoi c0) as [slNo [e0|]] eqn:H0; [discriminate Hbad|].
  destruct (Atoi c1) as [classNo [e1|]] eqn:H1; [discriminate Hbad|].
  cbn [snd] in Hbad.
  rewrite (parseRow_checks_last_score rowNum c0 c1 c2 c3 c4 c5 c6 c7 c8 c9 c10
             rest slNo classNo H0 H1).
  destruct (parseFloat c10) as [total [e10|]]; cbn [fst snd].
  - left. done.
  - right. split; [done|]. eexists _, _. split; [reflexivity|].
    cbn [ComputedSum Quiz MidSem LabTest WeeklyLabs PreCompre Compre Total].
    done.
Qed.

Lemma parseRow_short_row rowNum row :
  (length row < 11)%nat → bad_integer_field row = None →
  parseRow rowNum row = ([], Panic).
Proof.
  intros Hlen Hbad. unfold bad_integer_field in Hbad. unfold parseRow, index.
  destruct row as [|c0 row]; [reflexivity|].
  cbn [lookup list_lookup mbind io_bind mret io_ret] in *.
  destruct (Atoi c0) as [slNo [e0|]]; [discriminate Hbad|]. cbn [snd] in Hbad.
  destruct row as [|c1 row]; [reflexivity|].
  cbn [lookup list_lookup mbind io_bind mret io_ret] in *.
  destruct (Atoi c1) as [classNo [e1|]]; [discriminate Hbad|].
  do 9 (destruct row as [|? row];
        [cbn [lookup list_lookup mbind io_bind mret io_ret panic];
         repeat match goal with
                | |- context [parseFloat ?c] => destruct (parseFloat c)
                end; reflexivity|]).
  cbn [length] in Hlen. lia.
Qed.

Lemma imap_shift {A B} (f : Z → A → B) (i : Z) (l : list A) :
  imap ((λ k, f (i + Z.of_nat k + 2)) ∘ S) l =
  imap (λ k, f (i + 1 + Z.of_nat k + 2)) l.
Proof.
  apply imap_ext. intros k x _. cbn. f_equal. lia.
Qed.

(** The loop of [parseExcel], row by row. *)
Lemma parseRows_by_rows data : ∀ i students,
  parseRows i data students =
  (concat (imap (λ k, row_lines (i + Z.of_nat k + 2)) data),
   Done (students ++
         omap id (imap (λ k, row_record (i + Z.of_nat k + 2)) data))).
Proof.
  induction data as [|row rest IH]; intros i students.
  - cbn. by rewrite app_nil_r.
  - rewrite !imap_cons, !imap_shift. cbn [concat omap].
    replace (i + Z.of_nat 0 + 2) with (i + 2) by lia.
    unfold row_lines at 1, row_record at 1.
    destruct (decide (length row < 11)%nat) as [Hlen|Hlen].
    + rewrite parseRows_short by done. rewrite !bool_decide_eq_true_2 by done.
      cbn [id]. by rewrite IH.
    + rewrite !bool_decide_eq_false_2 by done.
      destruct (parseRow_cases (i + 2) row ltac:(lia))
        as [(field & _ & Hrow)|[(_ & Hrow)|(_ & out & s & Hrow & _)]].
      * rewrite (parseRows_rejected i row rest students [] _ ltac:(lia) Hrow).
        rewrite Hrow, IH. cbn [stdout outcome fst snd id]. done.
      * rewrite (parseRows_rejected i row rest students [] _ ltac:(lia) Hrow).
        rewrite Hrow, IH. cbn [stdout outcome fst snd id]. done.
      * rewrite (parseRows_accepted i row rest students out s ltac:(lia) Hrow).
        rewrite Hrow, IH. cbn [stdout outcome fst snd id].
        by rewrite app_nil_r, <- !app_assoc.
Qed.

End MoreParsing.

(** X1.  [parseRow] panics exactly on the rows of fewer than eleven cells
    in which no integer field is found bad before a missing cell is read;
    on a row of eleven cells or more it always returns. *)
Theorem parseRow_panics_iff (conv : Strconv) (rowNum : Z) (row : list string) :
  outcome (parseRow rowNum row) = Panic ↔
  (length row < 11)%nat ∧ bad_integer_field row = None.
Proof.
  split.
  - intros Hpanic. destruct (decide (length row < 11)%nat) as [Hlen|Hlen].
    + split; [done|]. destruct (bad_integer_field row) as [field|] eqn:Hbad; [|done].
      rewrite (parseRow_bad_integer rowNum row field Hbad) in Hpanic.
      discriminate Hpanic.
    + destruct (parseRow_cases rowNum row ltac:(lia))
        as [(field & _ & Hrow)|[(_ & Hrow)|(_ & out & s & Hrow & _)]];
        rewrite Hrow in Hpanic; discriminate Hpanic.
  - intros [Hlen Hbad]. by rewrite parseRow_short_row.
Qed.

(** X2.  On a sheet that has a header row, [parseExcel] neither panics nor
    fails.  It prints, in the order of the sheet, the lines of each data row
    (the mismatch lines of [parseRow], then the rejection line if the row is
    rejected), and returns, in the order of the sheet, the records of the
    accepted rows; the data row at index [k] is numbered [k + 2]. *)
Theorem parseExcel_by_rows (conv : Strconv) (header : list string)
    (data : list (list string)) :
  parseExcel (Sheet (header :: data)) =
  (concat (imap (λ k, row_lines (Z.of_nat k + 2)) data),
   Done (omap id (imap (λ k, row_record (Z.of_nat k + 2)) data), None)).
Proof.
  cbn [parseExcel]. rewrite parseRows_by_rows.
  cbn [mbind io_bind mret io_ret]. by rewrite app_nil_r, app_nil_l.
Qed.

(** X3.  Whenever [parseRow] returns an error, the record it returns is the
    zero record, nothing has been printed, and the message is one of the
    three the function makes, ending in the row number. *)
Theorem parseRow_error_is_clean (conv : Strconv) (rowNum : Z)
    (row : list string) (s : Student) (e : string) :
  outcome (parseRow rowNum row) = Done (s, Some e) →
  s = Student_zero ∧ stdout (parseRow rowNum row) = [] ∧
  ∃ what, what ∈ ["Sl No"; "Class No"; "numeric data"] ∧
          e = "invalid " +:+ what +:+ " at row " +:+ Fmt.d rowNum.
Proof.
  intros Hout.
  assert (Hfield : ∀ field, bad_integer_field row = Some field →
            field ∈ ["Sl No"; "Class No"]).
  { unfold bad_integer_field. intros field Hf.
    destruct (row !! 0%nat) as [c0|]; [|discriminate Hf].
    destruct (Atoi c0).2; [injection Hf as <-; repeat constructor|].
    destruct (row !! 1%nat) as [c1|]; [|discriminate Hf].
    destruct (Atoi c1).2; [injection Hf as <-; repeat constructor|discriminate Hf]. }
  destruct (bad_integer_field row) as [field|] eqn:Hbad.
  - rewrite (parseRow_bad_integer rowNum row field Hbad) in Hout |- *.
    injection Hout as <- <-. split; [done|]. split; [done|].
    exists field. split; [|done].
    specialize (Hfield field eq_refl).
    apply elem_of_cons in Hfield as [->|Hfield]; [repeat constructor|].
    apply elem_of_cons in Hfield as [->|Hfield]; [repeat constructor|].
    by apply elem_of_nil in Hfield.
  - destruct (decide (length row < 11)%nat) as [Hlen|Hlen].
    { rewrite parseRow_short_row in Hout by done. discriminate Hout. }
    destruct (parseRow_cases rowNum row ltac:(lia))
      as [(field & Hf & _)|[(_ & Hrow)|(_ & out & s' & Hrow & _)]].
    + congruence.
    + rewrite Hrow in Hout |- *. injection Hout as <- <-.
      split; [done|]. split; [done|]. exists "numeric data".
      split; [repeat constructor|done].
    + rewrite Hrow in Hout. discriminate Hout.
Qed.

(** X3 on the example row with a serial that is not a number. *)
Lemma parseRow_error_is_clean_witness :
  Student_zero = Student_zero ∧
  stdout (parseRow 3 ("x" :: tail (example_row "91"))) = [] ∧
  ∃ what, what ∈ ["Sl No"; "Class No"; "numeric data"] ∧
          "invalid Sl No at row 3" = "invalid " +:+ what +:+ " at row " +:+ Fmt.d 3.
Proof.
  exact (parseRow_error_is_clean Reference.strconv 3
           ("x" :: tail (example_row "91")) Student_zero
           "invalid Sl No at row 3" eq_refl).
Defined.

(** X4.  Every record [parseExcel] returns carries in [ComputedSum] the sum
    of its quiz, mid-semester, lab test, weekly labs and comprehensive
    scores, added in that order, whatever total the row declared. *)
Theorem parseExcel_computed_sum (conv : Strconv) (file : Workbook)
    (out : list string) (students : list Student) (err : error) (s : Student) :
  parseExcel file = (out, Done (students, err)) → s ∈ students →
  ComputedSum s = sum_of_parts s.
Proof.
  intros Hrun Hs. destruct file as [e|e|[|header data]]; cbn [parseExcel] in Hrun.
  - injection Hrun as _ <- _. by apply elem_of_nil in Hs.
  - injection Hrun as _ <- _. by apply elem_of_nil in Hs.
  - discriminate Hrun.
  - destruct (parseRows 0 data []) as [o [result|]] eqn:Hrows;
      cbn [mbind io_bind mret io_ret] in Hrun; [|discriminate Hrun].
    injection Hrun as _ <- _.
    apply parseRows_origin in Hrows as (new & -> & Hnew).
    rewrite app_nil_l in Hs. destruct (Hnew s Hs) as (k & row & _ & Hlen & Hrow).
    destruct (parseRow_cases (0 + Z.of_nat k + 2) row Hlen)
      as [(field & _ & Hr)|[(_ & Hr)|(_ & o' & s' & Hr & Hsum & _)]];
      rewrite Hr in Hrow; cbn [outcome snd] in Hrow; [discriminate..|].
    by injection Hrow as <-.
Qed.

(** X4 on the example sheet. *)
Lemma parseExcel_computed_sum_witness :
  ComputedSum example_record = sum_of_parts example_record.
Proof.
  apply (parseExcel_computed_sum Reference.strconv
           (example_open "marks.xlsx") [] [example_record] None).
  - exact example_parse.
  - left.
Defined.

(** * The tolerance test *)

Lemma abs_binary_round_aux s s' m e l :
  SFabs (binary_round_aux F64.prec F64.emax s m e l) =
  SFabs (binary_round_aux F64.prec F64.emax s' m e l).
Proof.
  unfold binary_round_aux.
  destruct (shr_fexp _ _ _ _ _) as [mrs' e'].
  destruct (shr_fexp _ _ _ _ _) as [mrs'' e''].
  destruct (shr_m mrs''); [reflexivity| |reflexivity].
  destruct (e'' <=? _); reflexivity.
Qed.

Lemma abs_binary_normalize_opp m e :
  SFabs (binary_normalize F64.prec F64.emax (- m) e false) =
  SFabs (binary_normalize F64.prec F64.emax m e false).
Proof.
  destruct m as [|p|p]; [reflexivity|..];
    unfold binary_normalize, Z.opp, binary_round; destruct (shl_align _ _ _);
    apply abs_binary_round_aux.
Qed.

Lemma abs_sub_swap a b : F64.abs (F64.sub a b) = F64.abs (F64.sub b a).
Proof.
  unfold F64.abs, F64.sub, SFsub.
  destruct a as [sa|sa| |sa ma ea], b as [sb|sb| |sb mb eb];
    try reflexivity; try (destruct sa, sb; reflexivity).
  rewrite (Z.min_comm eb ea). rewrite <- abs_binary_normalize_opp.
  f_equal. f_equal. lia.
Qed.

(** X5.  The tolerance test does not depend on the order of its two
    arguments. *)
Theorem almostEqual_symmetric (a b : float64) :
  almostEqual a b = almostEqual b a.
Proof. unfold almostEqual. by rewrite abs_sub_swap. Qed.

Lemma almostEqual_diag a : almostEqual a a = is_finite a.
Proof.
  unfold almostEqual, F64.sub, SFsub.
  destruct a as [[]|[]| |s m e]; try reflexivity.
  rewrite Z.sub_diag. reflexivity.
Qed.

(** X6.  A number is within tolerance of itself exactly when it is finite:
    an infinite or NaN subtotal is reported as a mismatch even against the
    same value. *)
Theorem almostEqual_self (a : float64) :
  almostEqual a a = is_finite a.
Proof. apply almostEqual_diag. Qed.

(** * More on the aggregation passes *)

(** X7.  [getScoreByCategory] returns the field with the name of the
    category for the seven categories, and 0 for any other name. *)
Theorem getScoreByCategory_table (student : Student) :
  (getScoreByCategory student <$> categories) =
    [Quiz student; MidSem student; LabTest student; WeeklyLabs student;
     PreCompre student; Compre student; Total student] ∧
  ∀ category, category ∉ categories →
    getScoreByCategory student category = F64.zero.
Proof.
  split; [reflexivity|].
  intros category Hc. unfold getScoreByCategory.
  repeat (case_decide as E;
          [exfalso; apply Hc; rewrite E; unfold categories; repeat constructor|];
          clear E).
  reflexivity.
Qed.

(** X7 on a name that is no category. *)
Lemma getScoreByCategory_table_witness :
  getScoreByCategory example_record "Attendance" = F64.zero.
Proof.
  apply (proj2 (getScoreByCategory_table example_record) "Attendance").
  unfold categories. intros Hin.
  repeat (apply elem_of_cons in Hin as [Hin|Hin]; [discriminate Hin|]).
  by apply elem_of_nil in Hin.
Defined.

(** X8.  [min] returns the smaller of its arguments. *)
Theorem min_is_minimum (a b : nat) : min a b = Nat.min a b.
Proof. unfold min. case_bool_decide; lia. Qed.

Lemma qualifying_elem branch students s :
  s ∈ qualifying branch students ↔
  s ∈ students ∧ in_batch s = true ∧ branchCode s = branch.
Proof. unfold qualifying. rewrite list_elem_of_filter. tauto. Qed.

Lemma branch_has_entry_iff students branch :
  is_Some (computeBranchAverages students !! branch) ↔
  ∃ s, s ∈ students ∧ in_batch s = true ∧ branchCode s = branch.
Proof.
  rewrite computeBranchAverages_lookup.
  destruct (decide (qualifying branch students = [])) as [Hq|Hq].
  - split; [by intros [? ?]|]. intros (s & Hs).
    apply qualifying_elem in Hs. rewrite Hq in Hs. by apply elem_of_nil in Hs.
  - split; [|by eauto]. intros _.
    destruct (qualifying branch students) as [|s q] eqn:E; [done|].
    exists s. apply qualifying_elem. rewrite E. left.
Qed.

(** X9.  A branch code has an entry in the result of
    [computeBranchAverages] exactly when some record of the batch has that
    code; in particular the result is empty when no record is in the
    batch. *)
Theorem computeBranchAverages_keys (students : list Student) :
  (∀ branch, is_Some (computeBranchAverages students !! branch) ↔
             ∃ s, s ∈ students ∧ in_batch s = true ∧ branchCode s = branch) ∧
  ((∀ s, s ∈ students → in_batch s = false) →
   computeBranchAverages students = ∅).
Proof.
  split; [intros branch; apply branch_has_entry_iff|].
  intros Hnone. apply map_empty. intros branch.
  apply eq_None_not_Some. rewrite branch_has_entry_iff.
  intros (s & Hs & Hin & _).
  rewrite (Hnone s Hs) in Hin. discriminate Hin.
Qed.

(** X9 on a list whose only record belongs to another year. *)
Lemma computeBranchAverages_keys_witness :
  computeBranchAverages [scored "E1" (F64.of_int 10)] = ∅.
Proof.
  apply (proj2 (computeBranchAverages_keys [scored "E1" (F64.of_int 10)])).
  intros s Hs. apply elem_of_cons in Hs as [->|Hs]; [reflexivity|].
  by apply elem_of_nil in Hs.
Defined.

(** X10.  The records outside the batch play no part in
    [computeBranchAverages]: removing them from the list leaves the result
    unchanged. *)
Theorem computeBranchAverages_ignores_others (students : list Student) :
  computeBranchAverages (filter (λ s, in_batch s = true) students) =
  computeBranchAverages students.
Proof.
  apply map_eq. intros branch. rewrite !computeBranchAverages_lookup.
  assert (Hq : qualifying branch (filter (λ s, in_batch s = true) students) =
               qualifying branch students).
  { unfold qualifying. rewrite list_filter_filter.
    apply list_filter_iff. intros s. tauto. }
  by rewrite Hq.
Qed.

Lemma substring_length n : ∀ m s,
  (m + n ≤ String.length s)%nat → String.length (substring m n s) = n.
Proof.
  intros m s. revert m. induction s as [|c s IH]; intros [|m] Hlen;
    destruct n as [|n]; cbn in *; try lia; try reflexivity.
  - f_equal. clear IH. revert s Hlen. induction n as [|n IHn]; intros s Hlen.
    + by destruct s.
    + destruct s as [|c' s]; cbn in *; [lia|]. f_equal. apply IHn. lia.
  - apply IH. lia.
  - apply IH. cbn. lia.
Qed.

(** X11.  Every key of the result of [computeBranchAverages] is a branch
    code of exactly two characters that contains "A". *)
Theorem computeBranchAverages_key_shape (students : list Student)
    (branch : string) :
  is_Some (computeBranchAverages students !! branch) →
  String.length branch = 2%nat ∧ ∃ a b, branch = a +:+ "A" +:+ b.
Proof.
  intros Hsome. apply branch_has_entry_iff in Hsome as (s & _ & Hin & <-).
  apply in_batch_spec in Hin as (Hlen & _ & Hcontains).
  split; [|exact Hcontains].
  unfold branchCode. apply substring_length. lia.
Qed.

(** * More on ranking *)

(** X12.  The map returned by [rankStudents] has the seven categories as
    its keys and no other. *)
Theorem rankStudents_keys (sorter : Sort) (h : store) (students : slice)
    (category : string) :
  is_Some (h !! base students) →
  is_Some ((rankStudents h students).2 !! category) ↔ category ∈ categories.
Proof.
  intros Hvalid. unfold rankStudents.
  destruct (rank_loop students categories h ∅ Hvalid)
    as (h' & rankings & -> & _ & Hother & Hin & _). cbn [snd].
  split.
  - intros [s Hs]. destruct (decide (category ∈ categories)) as [|Hc]; [done|].
    rewrite (Hother category Hc), lookup_empty in Hs. discriminate Hs.
  - intros Hc. destruct (Hin category Hc) as (s & -> & _). by eexists.
Qed.

(** X12 on the example store. *)
Lemma rankStudents_keys_witness :
  is_Some ((rankStudents example_store example_slice).2 !! "Quiz") ↔
  "Quiz" ∈ categories.
Proof.
  exact (rankStudents_keys Insertion.sorter example_store example_slice "Quiz"
           (ex_intro _ example_students eq_refl)).
Defined.

(** X13.  Whatever the scores are, NaN included, every ranking holds
    exactly [min(3, n)] records, all taken from the list, none more often
    than it occurs there; when the list has at most three records the
    ranking holds them all. *)
Theorem rankStudents_selects (sorter : Sort) (spec : SortSpec) (h : store)
    (students : slice) (category : string) :
  is_Some (h !! base students) → category ∈ categories →
  ∃ h' rankings s,
    rankStudents h students = (h', rankings) ∧
    rankings !! category = Some s ∧
    length (load h' s) = min 3 (length (load h students)) ∧
    load h' s ⊆+ load h students ∧
    ((length (load h students) ≤ 3)%nat → load h' s ≡ₚ load h students).
Proof.
  intros Hvalid Hc. unfold rankStudents.
  destruct (rank_loop students categories h ∅ Hvalid)
    as (h' & rankings & Hrun & _ & _ & Hin & _).
  destruct (Hin category Hc) as (s & Hs & _ & Hload).
  exists h', rankings, s. split; [exact Hrun|]. split; [exact Hs|].
  rewrite Hload. unfold top3.
  set (l := load h students).
  assert (Hperm : sortSlice (higher category) l ≡ₚ l) by apply sortSlice_perm.
  assert (Hlen : length (sortSlice (higher category) l) = length l)
    by (by rewrite Hperm).
  pose proof (min_le_r 3 (length l)) as Hmin.
  split; [rewrite length_take; lia|]. split.
  - trans (sortSlice (higher category) l).
    + apply sublist_submseteq, sublist_take.
    + by apply Permutation_submseteq.
  - intros Hsmall. rewrite take_ge; [exact Hperm|].
    rewrite Hlen. unfold min. case_bool_decide; lia.
Qed.

(** X13 with the insertion sort, on the records with a NaN total. *)
Lemma rankStudents_selects_witness :
  ∃ h' rankings s,
    rankStudents nan_store example_slice = (h', rankings) ∧
    rankings !! "Total" = Some s ∧
    length (load h' s) = min 3 (length (load nan_store example_slice)) ∧
    load h' s ⊆+ load nan_store example_slice ∧
    ((length (load nan_store example_slice) ≤ 3)%nat →
     load h' s ≡ₚ load nan_store example_slice).
Proof.
  apply (rankStudents_selects Insertion.sorter insertion_spec
           nan_store example_slice "Total").
  - exact (ex_intro _ nan_students eq_refl).
  - unfold categories. repeat constructor.
Defined.



(** * More on the program *)

Lemma NoDup_categories : NoDup categories.
Proof.
  unfold categories.
  repeat (apply NoDup_cons; split;
          [intros Hin;
           repeat (apply elem_of_cons in Hin as [Hin|Hin]; [discriminate Hin|]);
           by apply elem_of_nil in Hin|]).
  apply NoDup_nil_2.
Qed.

(** The entries of a map whose keys are the seven categories, up to
    order. *)
Lemma map_to_list_categories {V} (m : gmap string V) (f : string → V) :
  (∀ c, c ∈ categories → m !! c = Some (f c)) →
  (∀ c v, m !! c = Some v → c ∈ categories) →
  map_to_list m ≡ₚ (λ c, (c, f c)) <$> categories.
Proof.
  intros Hin Hkeys. apply NoDup_Permutation.
  - apply NoDup_map_to_list.
  - assert (Hinj : Inj (=) (=) (λ c : string, (c, f c)))
      by (intros c c' Heq; by injection Heq).
    apply (NoDup_fmap_2 _), NoDup_categories.
  - intros [c v]. rewrite elem_of_map_to_list, list_elem_of_fmap. split.
    + intros Hc. exists c. pose proof (Hkeys c v Hc) as Hcat.
      rewrite (Hin c Hcat) in Hc. injection Hc as <-. done.
    + intros (c' & [= -> ->] & Hcat). by apply Hin.
Qed.

Section ProgramFacts.
Context `{Strconv} `{sorter : Sort}.

Lemma ranking_blocks students o3 :
  range_order (rankings_of students).2 o3 →
  rank_block (rankings_of students).1 <$> o3 ≡ₚ
  (λ c, block_header c :: imap (rank_line c) (top3 c students)) <$> categories.
Proof.
  unfold range_order. intros ->.
  destruct (rankings_of_spec students) as (h' & rankings & -> & Hin & Hkeys).
  cbn [fst snd].
  set (block := λ c, block_header c :: imap (rank_line c) (top3 c students)).
  assert (Hext : rank_block h' <$> map_to_list rankings =
                 block <$> (map_to_list rankings).*1).
  { rewrite <- list_fmap_compose. apply list_fmap_ext.
    intros i [c s] Hi. apply list_elem_of_lookup_2, elem_of_map_to_list in Hi.
    destruct (Hin c (Hkeys c s Hi)) as (s' & Hs' & Hload).
    rewrite Hi in Hs'. injection Hs' as <-.
    unfold rank_block, block, block_header. cbn [fst snd compose].
    by rewrite Hload. }
  rewrite Hext. apply fmap_Permutation.
  apply NoDup_Permutation.
  - apply NoDup_fst_map_to_list.
  - apply NoDup_categories.
  - intros c. rewrite list_elem_of_fmap. split.
    + intros ([c' s] & -> & Hcs). apply elem_of_map_to_list in Hcs.
      by eapply Hkeys.
    + intros Hc. destruct (Hin c Hc) as (s & Hs & _).
      exists (c, s). split; [done|]. by apply elem_of_map_to_list.
Qed.

End ProgramFacts.

(** X15.  When the sheet has been read, [main] prints the lines of
    [parseExcel], then the header of the averages and the average lines,
    the header of the branches and the branch lines, the header of the
    rankings and, in some order, one block per category: the name of the
    category followed by the first [min(3, n)] records of its sorted copy,
    numbered from 1, each with its identifier and its score in that
    category to two decimals. *)
Theorem main_prints_a_block_per_category (conv : Strconv) (sorter : Sort)
    (prog path : string) (rest : list string) (open : string → Workbook)
    (out : list string) (students : list Student) (r : io unit) :
  parseExcel (open path) = (out, Done (students, None)) →
  main_run (prog :: path :: rest) open r →
  outcome r = Done tt ∧
  ∃ a b blocks,
    stdout r = out ++ [averages_header] ++ a ++ [branches_header] ++ b
               ++ [rankings_header] ++ concat blocks ∧
    a ≡ₚ average_line <$> map_to_list (computeAverages students) ∧
    b ≡ₚ branch_line <$> map_to_list (computeBranchAverages students) ∧
    blocks ≡ₚ (λ c, block_header c :: imap (rank_line c) (top3 c students))
              <$> categories.
Proof.
  intros Hparse. unfold main_run. rewrite Hparse.
  intros (o1 & o2 & o3 & H1 & H2 & H3 & ->). split; [done|].
  exists (average_line <$> o1), (branch_line <$> o2),
    (rank_block (rankings_of students).1 <$> o3).
  split; [reflexivity|]. split; [by apply fmap_Permutation|].
  split; [by apply fmap_Permutation|]. by apply ranking_blocks.
Qed.

(** X16.  When at least one record has been parsed, [main] prints exactly
    seven average lines, one per component in some order, each showing the
    mean of that component over all records to two decimals. *)
Theorem main_prints_the_means (conv : Strconv) (sorter : Sort)
    (prog path : string) (rest : list string) (open : string → Workbook)
    (out : list string) (students : list Student) (r : io unit) :
  parseExcel (open path) = (out, Done (students, None)) → students ≠ [] →
  main_run (prog :: path :: rest) open r →
  ∃ a after,
    stdout r = out ++ [averages_header] ++ a ++ [branches_header] ++ after ∧
    a ≡ₚ (λ c, c +:+ ": "
               +:+ Fmt.f2 (mean_of ((λ s, getScoreByCategory s c) <$> students))
               +:+ Fmt.nl) <$> categories.
Proof.
  intros Hparse Hne. unfold main_run. rewrite Hparse.
  intros (o1 & o2 & o3 & H1 & H2 & H3 & ->).
  eexists (average_line <$> o1), _. split; [reflexivity|].
  unfold range_order in H1. rewrite H1.
  rewrite (map_to_list_categories (computeAverages students)
             (λ c, mean_of ((λ s, getScoreByCategory s c) <$> students))).
  - by rewrite <- list_fmap_compose.
  - intros c Hc. by apply computeAverages_lookup.
  - intros c v Hc. destruct (decide (c ∈ categories)) as [|Hn]; [done|].
    unfold computeAverages in Hc.
    rewrite lookup_fmap, foldl_sum_step_lookup_other, lookup_empty in Hc by done.
    discriminate Hc.
Qed.

(** X17.  When no record has been parsed, [main] still prints the three
    headers: no average line and no branch line follow theirs, and the
    rankings are seven blocks that hold the name of a category only. *)
Theorem main_without_records (conv : Strconv) (sorter : Sort)
    (prog path : string) (rest : list string) (open : string → Workbook)
    (out : list string) (r : io unit) :
  parseExcel (open path) = (out, Done ([], None)) →
  main_run (prog :: path :: rest) open r →
  ∃ names,
    names ≡ₚ block_header <$> categories ∧
    r = (out ++ [averages_header; branches_header; rankings_header] ++ names,
         Done tt).
Proof.
  intros Hparse. unfold main_run. rewrite Hparse.
  intros (o1 & o2 & o3 & H1 & H2 & H3 & ->).
  unfold range_order in H1, H2.
  assert (Hno1 : o1 = []).
  { apply Permutation_nil_r. rewrite H1.
    assert (E : computeAverages [] = ∅)
      by (unfold computeAverages; cbn [foldl]; apply fmap_empty).
    by rewrite E, map_to_list_empty. }
  assert (Hno2 : o2 = []).
  { apply Permutation_nil_r. rewrite H2.
    assert (E : computeBranchAverages [] = ∅) by reflexivity.
    by rewrite E, map_to_list_empty. }
  subst o1 o2.
  exists (concat (rank_block (rankings_of []).1 <$> o3)). split.
  - rewrite (ranking_blocks [] o3 H3).
    assert (Hblocks : ∀ l : list string,
              concat ((λ c, block_header c :: imap (rank_line c) (top3 c []))
                      <$> l) = block_header <$> l).
    { induction l as [|c l IH]; [done|]. cbn [fmap list_fmap concat].
      rewrite IH. unfold top3. cbn [length]. by rewrite take_0. }
    by rewrite Hblocks.
  - reflexivity.
Qed.

(** X18.  When the file cannot be opened or its sheet cannot be read,
    [main] prints one line with the error and no report. *)
Theorem main_file_error (conv : Strconv) (sorter : Sort)
    (prog path : string) (rest : list string) (open : string → Workbook)
    (e : string) (r : io unit) :
  open path = OpenFails e ∨ open path = GetRowsFails e →
  main_run (prog :: path :: rest) open r →
  ∃ what, what ∈ ["failed to open file: "; "failed to read sheet: "] ∧
          r = (["Error: " +:+ what +:+ e +:+ Fmt.nl], Done tt).
Proof.
  unfold main_run. intros [-> | ->]; cbn; intros ->.
  - exists "failed to open file: ". split; [repeat constructor|done].
  - exists "failed to read sheet: ". split; [repeat constructor|done].
Qed.

(** X19.  On a sheet without any row, not even a header, [parseExcel]
    panics on [rows[1:]] and [main] stops without having printed
    anything. *)
Theorem main_empty_sheet (conv : Strconv) (sorter : Sort)
    (prog path : string) (rest : list string) (open : string → Workbook)
    (r : io unit) :
  open path = Sheet [] →
  main_run (prog :: path :: rest) open r →
  r = ([], Panic).
Proof. unfold main_run. intros ->. cbn. done. Qed.

(** * Instances of the statements above *)

(** X11 on the branch of the example record. *)
Lemma computeBranchAverages_key_shape_witness :
  String.length "A1" = 2%nat ∧ ∃ a b, "A1" = a +:+ "A" +:+ b.
Proof.
  apply (computeBranchAverages_key_shape [example_record] "A1").
  assert (E : computeBranchAverages [example_record] !! "A1"
              = Some (F64.of_int 91)) by (vm_compute; reflexivity).
  rewrite E. by eexists.
Defined.

(** X20.  A row that is accepted and whose declared subtotal and total are
    finite and equal to the sums computed from its parts prints nothing. *)
Theorem parseRow_silent_on_exact_sums (conv : Strconv) (rowNum : Z)
    (row : list string) (s : Student) :
  outcome (parseRow rowNum row) = Done (s, None) →
  PreCompre s =
    F64.add (F64.add (F64.add (Quiz s) (MidSem s)) (LabTest s)) (WeeklyLabs s) →
  Total s = sum_of_parts s →
  is_finite (PreCompre s) = true → is_finite (Total s) = true →
  stdout (parseRow rowNum row) = [].
Proof.
  intros Hout Hpre Htotal Hfpre Hftotal.
  destruct (decide (length row < 11)%nat) as [Hlen|Hlen].
  { destruct (bad_integer_field row) as [field|] eqn:Hbad.
    - rewrite (parseRow_bad_integer rowNum row field Hbad) in Hout.
      discriminate Hout.
    - rewrite parseRow_short_row in Hout by done. discriminate Hout. }
  destruct (parseRow_cases rowNum row ltac:(lia))
    as [(field & _ & Hrow)|[(_ & Hrow)|(_ & out & s' & Hrow & _ & Hlines)]];
    rewrite Hrow in Hout |- *; cbn [outcome stdout fst snd] in *;
    [discriminate Hout..|].
  injection Hout as ->. rewrite Hlines, <- Hpre, <- Htotal.
  by rewrite !almostEqual_diag, Hfpre, Hftotal.
Qed.

(** X20 on the example row. *)
Lemma parseRow_silent_on_exact_sums_witness :
  stdout (parseRow 2 (example_row "91")) = [].
Proof.
  apply (parseRow_silent_on_exact_sums Reference.strconv 2 (example_row "91")
           example_record); vm_compute; reflexivity.
Defined.

Lemma header_only_parse :
  parseExcel (header_only_open "marks.xlsx") = ([], Done ([], None)).
Proof. reflexivity. Qed.

(** The run on a sheet holding nothing but a header. *)
Lemma header_only_run_possible :
  main_run example_args header_only_open
    (reports [] [] [] (map_to_list (rankings_of []).2), Done tt).
Proof.
  unfold main_run, example_args. rewrite header_only_parse.
  exists [], [], (map_to_list (rankings_of []).2). unfold range_order.
  split; [reflexivity|]. split; [reflexivity|]. split; reflexivity.
Qed.

(** X15 on the example sheet, in the run that takes every map in the order
    of its entries. *)
Lemma main_prints_a_block_per_category_witness :
  outcome (example_run (λ V l, l)) = Done tt ∧
  ∃ a b blocks,
    stdout (example_run (λ V l, l)) =
      [] ++ [averages_header] ++ a ++ [branches_header] ++ b
      ++ [rankings_header] ++ concat blocks ∧
    a ≡ₚ average_line <$> map_to_list (computeAverages [example_record]) ∧
    b ≡ₚ branch_line <$> map_to_list (computeBranchAverages [example_record]) ∧
    blocks ≡ₚ (λ c, block_header c
                    :: imap (rank_line c) (top3 c [example_record]))
              <$> categories.
Proof.
  apply (main_prints_a_block_per_category Reference.strconv Insertion.sorter
           "student" "marks.xlsx" [] example_open).
  - exact example_parse.
  - apply example_run_possible. reflexivity.
Defined.

(** X16 on the example sheet. *)
Lemma main_prints_the_means_witness :
  ∃ a after,
    stdout (example_run (λ V l, l)) =
      [] ++ [averages_header] ++ a ++ [branches_header] ++ after ∧
    a ≡ₚ (λ c, c +:+ ": "
               +:+ Fmt.f2 (mean_of ((λ s, getScoreByCategory s c)
                                    <$> [example_record]))
               +:+ Fmt.nl) <$> categories.
Proof.
  apply (main_prints_the_means Reference.strconv Insertion.sorter
           "student" "marks.xlsx" [] example_open).
  - exact example_parse.
  - discriminate.
  - apply example_run_possible. reflexivity.
Defined.

(** X17 on a sheet holding nothing but a header. *)
Lemma main_without_records_witness :
  ∃ names,
    names ≡ₚ block_header <$> categories ∧
    (reports [] [] [] (map_to_list (rankings_of []).2), Done tt) =
    ([] ++ [averages_header; branches_header; rankings_header] ++ names,
     Done tt).
Proof.
  apply (main_without_records Reference.strconv Insertion.sorter
           "student" "marks.xlsx" [] header_only_open).
  - exact header_only_parse.
  - exact header_only_run_possible.
Defined.

(** X18 on a file that does not exist. *)
Lemma main_file_error_witness :
  ∃ what, what ∈ ["failed to open file: "; "failed to read sheet: "] ∧
    (["Error: failed to open file: open marks.xlsx: no such file or directory"
      +:+ Fmt.nl], Done tt) =
    (["Error: " +:+ what +:+ "open marks.xlsx: no such file or directory"
      +:+ Fmt.nl], Done tt).
Proof.
  apply (main_file_error Reference.strconv Insertion.sorter
           "student" "marks.xlsx" [] unreadable_open).
  - left. reflexivity.
  - reflexivity.
Defined.

(** X19 on a sheet without rows. *)
Lemma main_empty_sheet_witness :
  ([], Panic) = (([], Panic) : io unit).
Proof.
  apply (main_empty_sheet Reference.strconv Insertion.sorter
           "student" "marks.xlsx" [] empty_sheet_open).
  - reflexivity.
  - reflexivity.
Defined.
